(** * cli-utils: argument parser, Zod-based validator and CLI runner

    A shallow embedding of [parser.ts] and [validator.ts] together with the
    properties the specification states about them.

    Conventions of the embedding:
    - a JavaScript string is a [string] read as a sequence of code units
      below 256 (the Latin-1 range), on which [toLowerCase] is modelled in
      full;
    - a [Record<string, T>] used as a dictionary ([RawArgs]) is a
      [gmap string T] over its own keys; a [CommandMap], whose enumeration
      order is visible in the help text, is an association list of its
      own properties; the members every plain object inherits from
      [Object.prototype] are modelled where the code meets them: the
      [__proto__] setter on assignment into [RawArgs], the inherited
      members on the lookup [commands[commandName]];
    - a JavaScript number is an IEEE-754 binary64 value ([spec_float]);
    - side effects of [runCli] (console output, calls into the client class,
      the handler and the schema, [process.exit]) are recorded in a trace by
      a small monad whose outcomes are: normal completion, a thrown
      exception, or termination of the process; [await] is sequencing, and
      a collaborator is a total function on the state of the outside
      world. *)

From Stdlib Require Import ZArith Ascii String List Bool Lia.
From Stdlib Require Import Floats.SpecFloat.
From stdpp Require Import gmap strings list fin_maps pretty.

Local Open Scope string_scope.

(* ===================================================================== *)
(** * String primitives of the host language *)
(* ===================================================================== *)

Module JsString.

Fixpoint has_prefix (p s : string) : bool :=
  match p with
  | EmptyString => true
  | String a p' =>
      match s with
      | EmptyString => false
      | String b s' => Ascii.eqb a b && has_prefix p' s'
      end
  end.

(** [s.startsWith(p)] *)
Definition startsWith (s p : string) : bool := has_prefix p s.

(** [s.includes(c)] for a one-character search string. *)
Fixpoint includes (s : string) (c : ascii) : bool :=
  match s with
  | EmptyString => false
  | String a s' => if Ascii.eqb a c then true else includes s' c
  end.

(** [s.slice(n)] for a non-negative [n]. *)
Fixpoint slice (n : nat) (s : string) : string :=
  match n, s with
  | O, _ => s
  | S _, EmptyString => EmptyString
  | S n', String _ s' => slice n' s'
  end.

(** [s.split(c)] for a one-character separator: never the empty list. *)
Fixpoint split (s : string) (c : ascii) : list string :=
  match s with
  | EmptyString => [EmptyString]
  | String a s' =>
      if Ascii.eqb a c then EmptyString :: split s' c
      else match split s' c with
           | h :: t => String a h :: t
           | [] => [String a EmptyString]
           end
  end.

(** [parts.join(sep)] *)
Definition join (sep : string) (parts : list string) : string :=
  String.concat sep parts.

(** A string is truthy iff it is not empty. *)
Definition truthy (s : string) : bool :=
  match s with EmptyString => false | String _ _ => true end.

Definition is_lower (c : ascii) : bool :=
  let n := nat_of_ascii c in (97 <=? n)%nat && (n <=? 122)%nat.

Definition is_upper (c : ascii) : bool :=
  let n := nat_of_ascii c in (65 <=? n)%nat && (n <=? 90)%nat.

Definition is_digit (c : ascii) : bool :=
  let n := nat_of_ascii c in (48 <=? n)%nat && (n <=? 57)%nat.

Definition upper_char (c : ascii) : ascii :=
  if is_lower c then ascii_of_nat (nat_of_ascii c - 32) else c.

(** The capital letters of the Latin-1 supplement: U+00C0 to U+00DE
    without the multiplication sign U+00D7. *)
Definition is_latin1_upper (c : ascii) : bool :=
  let n := nat_of_ascii c in
  (192 <=? n)%nat && (n <=? 222)%nat && negb (n =? 215)%nat.

Definition lower_char (c : ascii) : ascii :=
  if is_upper c || is_latin1_upper c
  then ascii_of_nat (nat_of_ascii c + 32) else c.

(** [s.toLowerCase()] *)
Fixpoint toLowerCase (s : string) : string :=
  match s with
  | EmptyString => EmptyString
  | String a s' => String (lower_char a) (toLowerCase s')
  end.

End JsString.

(* ===================================================================== *)
(** * parser.ts *)
(* ===================================================================== *)

Module Parser.
Import JsString.

(** [type RawArgs = Record<string, string | boolean>] *)
Inductive RawValue : Type :=
| RStr (s : string)
| RBool (b : bool).

#[global] Instance RawValue_eq_dec : EqDecision RawValue.
Proof. solve_decision. Defined.

Abbreviation RawArgs := (gmap string RawValue).

(** [interface GlobalFlags] as [extractGlobalFlags] fills it. *)
Record GlobalFlags : Type := mkGlobalFlags {
  noCache : bool;
  help : bool;
  verbose : bool
}.

(** [str.replace(/-([a-z])/g, (_, letter) => letter.toUpperCase())]:
    a left-to-right scan; a hyphen followed by a lowercase letter is
    replaced, together with that letter, by the letter in upper case and
    the scan resumes after the letter. *)
Fixpoint kebabToCamel (str : string) : string :=
  match str with
  | EmptyString => EmptyString
  | String a rest =>
      match rest with
      | String c rest' =>
          if Ascii.eqb a "-" && is_lower c
          then String (upper_char c) (kebabToCamel rest')
          else String a (kebabToCamel rest)
      | EmptyString => String a EmptyString
      end
  end.

(** [str.replace(/([A-Z])/g, "-$1")] *)
Fixpoint hyphenate (str : string) : string :=
  match str with
  | EmptyString => EmptyString
  | String a rest =>
      if is_upper a then String "-" (String a (hyphenate rest))
      else String a (hyphenate rest)
  end.

(** [str.replace(/([A-Z])/g, "-$1").toLowerCase()] *)
Definition camelToKebab (str : string) : string :=
  toLowerCase (hyphenate str).

(** [args[key] = value] on the plain object [args], for a string or a
    boolean: the key [__proto__] names the accessor inherited from
    [Object.prototype], whose setter ignores a value that is neither an
    object nor [null], so nothing is stored under it. *)
Definition assign (key : string) (value : RawValue) (args : RawArgs) : RawArgs :=
  if String.eqb key "__proto__" then args else <[key := value]> args.

(** The body of the [for] loop of [parseArgs]: [argv] is the part of the
    argument vector from index [i] on, [args] the object built so far.
    Consuming the next token ([i++] inside the body) is the recursive call
    on the tail of the tail. *)
Fixpoint parseArgs_from (argv : list string) (args : RawArgs) : RawArgs :=
  match argv with
  | [] => args
  | arg :: rest =>
      if negb (startsWith arg "--") then parseArgs_from rest args
      else if includes arg "=" then
        match split (slice 2 arg) "=" with
        | key :: valueParts =>
            parseArgs_from rest
              (assign (kebabToCamel key) (RStr (join "=" valueParts)) args)
        | [] => parseArgs_from rest args
        end
      else
        let key := slice 2 arg in
        if startsWith key "no-" then
          let positiveKey := slice 3 key in
          parseArgs_from rest (assign (kebabToCamel positiveKey) (RBool false) args)
        else
          match rest with
          | nextArg :: rest' =>
              if truthy nextArg && negb (startsWith nextArg "--")
              then parseArgs_from rest' (assign (kebabToCamel key) (RStr nextArg) args)
              else parseArgs_from rest (assign (kebabToCamel key) (RBool true) args)
          | [] => parseArgs_from rest (assign (kebabToCamel key) (RBool true) args)
          end
  end.

Definition parseArgs (argv : list string) : RawArgs :=
  parseArgs_from argv ∅.

(** [argv.find((arg) => !arg.startsWith("--"))] *)
Definition extractCommand (argv : list string) : option string :=
  List.find (fun arg => negb (startsWith arg "--")) argv.

Definition is_true_flag (v : option RawValue) : bool :=
  match v with
  | Some (RBool true) => true
  | Some (RStr s) => String.eqb s "true"
  | _ => false
  end.

Definition extractGlobalFlags (args : RawArgs) : GlobalFlags :=
  {| noCache := is_true_flag (args !! "noCache");
     help := is_true_flag (args !! "help");
     verbose := is_true_flag (args !! "verbose") |}.

End Parser.

(* ===================================================================== *)
(** * Values and numbers of the host language *)
(* ===================================================================== *)

Module Js.
Import JsString.

(** A JavaScript number: an IEEE-754 binary64 value. *)
Definition number : Type := spec_float.

Definition NaN : number := S754_nan.

(** The number denoted by an integer literal. *)
Definition of_Z (z : Z) : number := binary_normalize 53 1024 z 0 false.

(** [Number.isInteger(n)]: [n] is finite and has no fractional part. *)
Definition isInteger (n : number) : bool :=
  match n with
  | S754_zero _ => true
  | S754_finite _ m e =>
      if (0 <=? e)%Z then true else (Z.pos m mod 2 ^ (- e) =? 0)%Z
  | S754_infinity _ => false
  | S754_nan => false
  end.

(** The number 3.5, that is 7881299347898368 * 2^-51. *)
Definition three_and_a_half : number := S754_finite false 7881299347898368 (-51).

(** [a < b] and [a <= b] on numbers (false as soon as one side is NaN). *)
Definition number_lt (a b : number) : bool := SFltb a b.
Definition number_le (a b : number) : bool := SFleb a b.

(** The primitive values that reach the validator. *)
Inductive value : Type :=
| VUndefined
| VNull
| VBool (b : bool)
| VString (s : string)
| VNumber (n : number).

Definition is_empty_string (v : value) : bool :=
  match v with VString EmptyString => true | _ => false end.

Definition is_undefined (v : value) : bool :=
  match v with VUndefined => true | _ => false end.

Definition is_null (v : value) : bool :=
  match v with VNull => true | _ => false end.

(** What [throw] can raise, as far as the runner looks at it:
    [error instanceof Error ? error.message : String(error)]. *)
Inductive Thrown : Type :=
| ErrorObject (message : string)
| NonError (asString : string).

Definition thrown_message (error : Thrown) : string :=
  match error with
  | ErrorObject message => message
  | NonError asString => asString
  end.

(** Built-in conversions of the host that the library calls and that are
    not part of this repository. *)
Class Builtins : Type := {
  (** [Number(s)] on a string *)
  StringToNumber : string -> number;
  (** [String(n)] on a number, as a template literal does *)
  NumberToString : number -> string
}.

(** [Number(val)] *)
Definition Number `{Builtins} (val : value) : number :=
  match val with
  | VUndefined => NaN
  | VNull => of_Z 0
  | VBool true => of_Z 1
  | VBool false => of_Z 0
  | VString s => StringToNumber s
  | VNumber n => n
  end.

(** The string a template literal produces for a value. *)
Definition ToString `{Builtins} (val : value) : string :=
  match val with
  | VUndefined => "undefined"
  | VNull => "null"
  | VBool true => "true"
  | VBool false => "false"
  | VString s => s
  | VNumber n => NumberToString n
  end.

End Js.

(* ===================================================================== *)
(** * The part of the zod library the code relies on *)
(* ===================================================================== *)

Module Zod.
Import JsString Js.

Inductive IssueCode : Type :=
| invalid_type (expected received : string)
| too_small (minimum : number)
| too_big (maximum : number)
| invalid_enum_value (options : list string)
| custom.

Inductive PathElement : Type :=
| PKey (key : string)
| PIndex (index : nat).

Record ZodIssue : Type := mkIssue {
  code : IssueCode;
  path : list PathElement;
  message : string
}.

Record ZodError : Type := mkZodError { issues : list ZodIssue }.

(** Outcome of parsing one primitive value: the parsed value, or the codes
    of the issues found. *)
Inductive ParseReturn : Type :=
| POk (data : value)
| PInvalid (found : list IssueCode).

Inductive NumberCheck : Type :=
| CheckInt
| CheckMin (bound : number) (inclusive : bool)
| CheckMax (bound : number) (inclusive : bool).

(** The effect of a [ZodEffects] node: [z.preprocess] rewrites the input
    before the inner schema sees it; a refinement or a transform acts on
    the outcome of the inner schema. *)
Inductive Effect : Type :=
| Preprocess (transform : value -> value)
| AfterParse (finish : ParseReturn -> ParseReturn).

(** A schema node: its class with the class's [_def] fields, and the
    [description] every node carries. The checks of a string schema are
    kept as one function; [ZodOther] stands for the node classes the code
    never tests for (unions, dates, ...). *)
Inductive ZodType : Type :=
| Schema (def : ZodTypeDef) (description : option string)
with ZodTypeDef : Type :=
| ZodString (checks : string -> list IssueCode)
| ZodNumber (checks : list NumberCheck)
| ZodBoolean
| ZodEnum (values : list string)
| ZodOptional (innerType : ZodType)
| ZodDefault (innerType : ZodType) (defaultValue : value)
| ZodEffects (schema : ZodType) (effect : Effect)
| ZodObject (shape : list (string * ZodType))
| ZodOther (parse : value -> ParseReturn).

Definition def_of (t : ZodType) : ZodTypeDef :=
  match t with Schema def _ => def end.

Definition description_of (t : ZodType) : option string :=
  match t with Schema _ description => description end.

(** [getParsedType(data)] *)
Definition getParsedType (data : value) : string :=
  match data with
  | VUndefined => "undefined"
  | VNull => "null"
  | VBool _ => "boolean"
  | VString _ => "string"
  | VNumber S754_nan => "nan"
  | VNumber _ => "number"
  end.

Definition run_check (n : number) (check : NumberCheck) : list IssueCode :=
  match check with
  | CheckInt =>
      if isInteger n then [] else [invalid_type "integer" "float"]
  | CheckMin bound inclusive =>
      if (if inclusive then number_lt n bound else number_le n bound)
      then [too_small bound] else []
  | CheckMax bound inclusive =>
      if (if inclusive then number_lt bound n else number_le bound n)
      then [too_big bound] else []
  end.

(** [ZodNumber._parse] *)
Definition parse_number (checks : list NumberCheck) (input : value) : ParseReturn :=
  match input with
  | VNumber n =>
      match n with
      | S754_nan => PInvalid [invalid_type "number" "nan"]
      | _ =>
          match concat (map (run_check n) checks) with
          | [] => POk input
          | found => PInvalid found
          end
      end
  | _ => PInvalid [invalid_type "number" (getParsedType input)]
  end.

(** [util.joinValues(values)] *)
Definition joinValues (values : list string) : string :=
  join " | " (map (fun v => "'" +:+ v +:+ "'") values).

(** [ZodEnum._parse] *)
Definition parse_enum (values : list string) (input : value) : ParseReturn :=
  match input with
  | VString s =>
      if existsb (String.eqb s) values then POk input
      else PInvalid [invalid_enum_value values]
  | _ => PInvalid [invalid_type (joinValues values) (getParsedType input)]
  end.

(** [schema._parse] on a primitive input. *)
Fixpoint parse (t : ZodType) (input : value) {struct t} : ParseReturn :=
  match t with
  | Schema def _ =>
      match def with
      | ZodString checks =>
          match input with
          | VString s =>
              match checks s with
              | [] => POk input
              | found => PInvalid found
              end
          | _ => PInvalid [invalid_type "string" (getParsedType input)]
          end
      | ZodNumber checks => parse_number checks input
      | ZodBoolean =>
          match input with
          | VBool _ => POk input
          | _ => PInvalid [invalid_type "boolean" (getParsedType input)]
          end
      | ZodEnum values => parse_enum values input
      | ZodOptional innerType =>
          match input with
          | VUndefined => POk VUndefined
          | _ => parse innerType input
          end
      | ZodDefault innerType defaultValue =>
          match input with
          | VUndefined => parse innerType defaultValue
          | _ => parse innerType input
          end
      | ZodEffects schema (Preprocess transform) =>
          parse schema (transform input)
      | ZodEffects schema (AfterParse finish) =>
          finish (parse schema input)
      | ZodObject _ => PInvalid [invalid_type "object" (getParsedType input)]
      | ZodOther custom_parse => custom_parse input
      end
  end.

Definition accepts (t : ZodType) (input : value) : bool :=
  match parse t input with POk _ => true | PInvalid _ => false end.

End Zod.

(* ===================================================================== *)
(** * validator.ts: coercion helpers *)
(* ===================================================================== *)

Module cliTypes.
Import JsString Js Zod.

Section Helpers.
Context `{Builtins}.

(** The preprocessing function of [cliTypes.int]. *)
Definition int_preprocess (val : value) : value :=
  if is_empty_string val || is_undefined val || is_null val then VUndefined
  else
    let num := Number val in
    if negb (isInteger num) then VNumber NaN
    else VNumber num.

Definition with_min (min : option number) (checks : list NumberCheck) :=
  match min with
  | Some bound => (checks ++ [CheckMin bound true])%list
  | None => checks
  end.

Definition with_max (max : option number) (checks : list NumberCheck) :=
  match max with
  | Some bound => (checks ++ [CheckMax bound true])%list
  | None => checks
  end.

(** [cliTypes.int(min?, max?)] *)
Definition int (min max : option number) : ZodType :=
  let inner := Schema (ZodNumber (with_max max (with_min min [CheckInt]))) None in
  Schema (ZodEffects inner (Preprocess int_preprocess)) None.

Definition float_preprocess (val : value) : value :=
  if is_empty_string val || is_undefined val || is_null val then VUndefined
  else VNumber (Number val).

(** [cliTypes.float(min?, max?)] *)
Definition float (min max : option number) : ZodType :=
  let inner := Schema (ZodNumber (with_max max (with_min min []))) None in
  Schema (ZodEffects inner (Preprocess float_preprocess)) None.

Definition bool_preprocess (val : value) : value :=
  match val with
  | VBool true => VBool true
  | VString "true" => VBool true
  | VBool false => VBool false
  | VString "false" => VBool false
  | _ => VUndefined
  end.

(** [cliTypes.bool()] *)
Definition bool : ZodType :=
  Schema (ZodEffects (Schema ZodBoolean None) (Preprocess bool_preprocess)) None.

Definition limit_preprocess (val : value) : value :=
  if is_empty_string val || is_undefined val then VUndefined
  else VNumber (Number val).

(** [cliTypes.limit(defaultVal = 50, max = 250)]: an omitted argument
    is [None] and takes the default of the signature. *)
Definition limit (defaultVal max : option number) : ZodType :=
  let defaultVal := match defaultVal with Some d => d | None => of_Z 50 end in
  let max := match max with Some m => m | None => of_Z 250 end in
  let bounded :=
    Schema (ZodNumber [CheckInt; CheckMin (of_Z 1) true; CheckMax max true]) None in
  Schema (ZodEffects
            (Schema (ZodDefault bounded (VNumber defaultVal)) None)
            (Preprocess limit_preprocess)) None.

End Helpers.
End cliTypes.

(* ===================================================================== *)
(** * validator.ts: introspection, help text, error text, runner *)
(* ===================================================================== *)

Module Validator.
Import JsString Parser Js Zod.

(** [interface SchemaField] ([None] is an absent property). *)
Record SchemaField : Type := mkField {
  name : string;
  type : string;
  required : bool;
  default : option value;
  field_description : option string;
  enumValues : option (list string)
}.

(** [interface RunCliOptions] (the [globals] property is never read). *)
Record RunCliOptions : Type := mkOptions {
  programName : option string;
  program_description : option string
}.

(** The [while (innerSchema instanceof z.ZodEffects)] loop. *)
Fixpoint unwrapEffects (innerSchema : ZodType) : ZodType :=
  match innerSchema with
  | Schema (ZodEffects inner _) _ => unwrapEffects inner
  | _ => innerSchema
  end.

(** Property assignments on a [SchemaField]. *)
Definition set_required (b : bool) (field : SchemaField) : SchemaField :=
  {| name := field.(name); type := field.(type); required := b;
     default := field.(default);
     field_description := field.(field_description);
     enumValues := field.(enumValues) |}.

Definition set_default (d : value) (field : SchemaField) : SchemaField :=
  {| name := field.(name); type := field.(type); required := field.(required);
     default := Some d;
     field_description := field.(field_description);
     enumValues := field.(enumValues) |}.

Definition set_type (t : string) (field : SchemaField) : SchemaField :=
  {| name := field.(name); type := t; required := field.(required);
     default := field.(default);
     field_description := field.(field_description);
     enumValues := field.(enumValues) |}.

Definition set_enumValues (values : list string) (field : SchemaField) : SchemaField :=
  {| name := field.(name); type := field.(type); required := field.(required);
     default := field.(default);
     field_description := field.(field_description);
     enumValues := Some values |}.

(** The body of the loop over [Object.entries(shape)]. *)
Definition extractField (name : string) (fieldSchema : ZodType) : SchemaField :=
  let field := {| name := name; type := "string"; required := true;
                  default := None;
                  field_description := description_of fieldSchema;
                  enumValues := None |} in
  (* Unwrap optional/default *)
  let '(field, fieldInner) :=
    match def_of fieldSchema with
    | ZodOptional innerType => (set_required false field, innerType)
    | _ => (field, fieldSchema)
    end in
  let '(field, fieldInner) :=
    match def_of fieldInner with
    | ZodDefault innerType defaultValue =>
        (set_default defaultValue (set_required false field), innerType)
    | _ => (field, fieldInner)
    end in
  (* Determine type *)
  match def_of fieldInner with
  | ZodString _ => set_type "string" field
  | ZodNumber _ => set_type "number" field
  | ZodBoolean => set_type "boolean" field
  | ZodEnum values => set_enumValues values (set_type "enum" field)
  | ZodEffects _ _ => set_type "string" field
  | _ => field
  end.

(** [shape] lists the fields in the order of [Object.entries]. *)
Definition extractSchemaFields (schema : ZodType) : list SchemaField :=
  match def_of (unwrapEffects schema) with
  | ZodObject shape => map (fun '(name, rawFieldSchema) => extractField name rawFieldSchema) shape
  | _ => []
  end.

Definition nl : string := String (ascii_of_nat 10) EmptyString.

Definition truthy_opt (s : option string) : bool :=
  match s with Some s => truthy s | None => false end.

(** [s || fallback] on an optional string. *)
Definition or_else (s : option string) (fallback : string) : string :=
  match s with
  | Some s => if truthy s then s else fallback
  | None => fallback
  end.

Definition path_element_string (p : PathElement) : string :=
  match p with
  | PKey key => key
  | PIndex index => pretty index
  end.

Section Rendering.
Context `{Builtins}.

(** [formatZodError], one issue. *)
Definition formatIssue (issue : ZodIssue) : string :=
  let path :=
    match issue.(path) with
    | [] => "input"
    | elements => "--" +:+ camelToKebab (join "." (map path_element_string elements))
    end in
  match issue.(code) with
  | invalid_type expected received =>
      if String.eqb received "undefined"
      then "Missing required argument: " +:+ path
      else path +:+ ": Expected " +:+ expected +:+ ", got " +:+ received
  | too_small minimum =>
      path +:+ ": Value too small (minimum: " +:+ NumberToString minimum +:+ ")"
  | too_big maximum =>
      path +:+ ": Value too large (maximum: " +:+ NumberToString maximum +:+ ")"
  | invalid_enum_value options =>
      path +:+ ": Invalid value. Expected one of: " +:+ join ", " options
  | custom => path +:+ ": " +:+ issue.(message)
  end.

Definition formatZodError (error : ZodError) : string :=
  join nl (map formatIssue error.(issues)).

Definition fieldLine (field : SchemaField) : string :=
  let flagName := "--" +:+ camelToKebab field.(name) in
  let typeStr :=
    match field.(enumValues) with
    | Some values => join "|" values
    | None => "<" +:+ field.(type) +:+ ">"
    end in
  let reqStr :=
    if field.(required) then "(required)"
    else match field.(default) with
         | Some VUndefined | None => "(optional)"
         | Some d => "(default: " +:+ ToString d +:+ ")"
         end in
  let desc :=
    match field.(field_description) with
    | Some d => if truthy d then " - " +:+ d else ""
    | None => ""
    end in
  "      " +:+ flagName +:+ " " +:+ typeStr +:+ " " +:+ reqStr +:+ desc.

(** [generateCommandHelp], on the two properties of the definition it
    reads. *)
Definition generateCommandHelp (commandName : string)
    (schema : ZodType) (description : option string) : string :=
  let fields := extractSchemaFields schema in
  let lines := ["  " +:+ commandName] in
  let lines :=
    match description with
    | Some d => if truthy d then (lines ++ ["    " +:+ d])%list else lines
    | None => lines
    end in
  let lines :=
    match fields with
    | [] => lines
    | _ => (lines ++ ["    Options:"] ++ map fieldLine fields)%list
    end in
  join nl lines.

End Rendering.
(** ** The runner *)

(** The names of the members a plain object inherits from
    [Object.prototype]: [commands[name]] finds them when [commands] has no
    own property of that name. *)
Definition object_prototype_members : list string :=
  ["constructor"; "__defineGetter__"; "__defineSetter__"; "hasOwnProperty";
   "__lookupGetter__"; "__lookupSetter__"; "isPrototypeOf";
   "propertyIsEnumerable"; "toString"; "valueOf"; "__proto__";
   "toLocaleString"].

Definition inherited_member (name : string) : bool :=
  existsb (String.eqb name) object_prototype_members.

(** What [commandDef.schema.safeParse] throws when [commandDef] has no
    [schema] (the message is the one of Node.js). *)
Definition schema_missing : Thrown :=
  ErrorObject "Cannot read properties of undefined (reading 'safeParse')".

(** What the runner does to the outside, in order. [ConsoleError m] is
    [console.error(JSON.stringify({ error: true, message: m }, null, 2))]. *)
Inductive Event : Type :=
| ConsoleLog (text : string)
| ConsoleError (message : string)
| SafeParse (commandName : string)
| NewClient
| DisableCache
| Handler (commandName : string)
| Disconnect.

(** How a piece of code completes: normally, by throwing, or because
    [process.exit(code)] ended the process. *)
Inductive Outcome (A : Type) : Type :=
| Returned (a : A)
| Raised (error : Thrown)
| Exited (exitCode : Z).
Arguments Returned {A} a.
Arguments Raised {A} error.
Arguments Exited {A} exitCode.

(** [parseResult] of [schema.safeParse(rawArgs)]. *)
Inductive SafeParseReturn (Data : Type) : Type :=
| ParseSuccess (data : Data)
| ParseFailure (error : ZodError).
Arguments ParseSuccess {Data} data.
Arguments ParseFailure {Data} error.

Section Runner.
Context `{Builtins}.
(** [World] is whatever the client and the handlers act on; [Data] the
    typed arguments a schema produces; [Result] what a handler returns. *)
Context {World Data Result : Type}.
(** The validation engine on the raw-arguments object, and
    [JSON.stringify(result, null, 2)] as [console.log] prints it. *)
Context (safeParse : ZodType -> RawArgs -> SafeParseReturn Data).
Context (JSON_stringify : Result -> Thrown + string).

(** A method call: it may change the world and may throw. *)
Definition Method : Type := World -> World * option Thrown.

(** The two capabilities the runner looks for on a client; [None] when
    [typeof client.m !== "function"]. *)
Record Client : Type := mkClient {
  disableCache : option Method;
  disconnect : option Method
}.

(** [new ClientClass()] *)
Definition ClientClass : Type := World -> World * (Thrown + Client).

Definition CommandHandler : Type :=
  Data -> Client -> GlobalFlags -> World -> World * (Thrown + Result).

Record CommandDef : Type := mkCommand {
  schema : ZodType;
  handler : CommandHandler;
  description : option string
}.

(** [createCommand] *)
Definition createCommand (schema : ZodType) (handler : CommandHandler)
    (description : option string) : CommandDef :=
  {| schema := schema; handler := handler; description := description |}.

(** [CommandMap]: the entries of the object, in enumeration order. *)
Definition CommandMap : Type := list (string * CommandDef).

(** The own property [commandName] of [commands], if there is one. *)
Fixpoint lookup_command (commands : CommandMap) (commandName : string)
    : option CommandDef :=
  match commands with
  | [] => None
  | (key, def) :: others =>
      if String.eqb key commandName then Some def
      else lookup_command others commandName
  end.

(** [generateHelp] *)
Definition generateHelp (commands : CommandMap) (options : option RunCliOptions)
    : string :=
  let programName :=
    match options with
    | Some o => or_else o.(programName) "cli"
    | None => "cli"
    end in
  let lines := [programName] in
  let lines :=
    match options with
    | Some o =>
        if truthy_opt o.(program_description)
        then (lines ++ ["  " +:+ or_else o.(program_description) ""])%list
        else lines
    | None => lines
    end in
  let lines :=
    (lines ++
     [""; "Usage:"; "  npx tsx " +:+ programName +:+ ".ts <command> [options]";
      ""; "Global Options:";
      "  --help, -h      Show this help message";
      "  --no-cache      Disable caching for this request";
      "  --verbose       Enable verbose output";
      ""; "Commands:"])%list in
  let lines :=
    (lines ++
     concat (map (fun '(name, def) =>
                    [generateCommandHelp name def.(schema) def.(description); ""])
                 commands))%list in
  join nl lines.

(** *** The effect monad of the runner *)

Record State : Type := mkState {
  world : World;
  (** the local variable [client] of [runCli] *)
  client : option Client;
  trace : list Event
}.

Definition M (A : Type) : Type := State -> State * Outcome A.

Definition ret {A} (a : A) : M A := fun s => (s, Returned a).

Definition bind {A B} (m : M A) (k : A -> M B) : M B := fun s =>
  match m s with
  | (s', Returned a) => k a s'
  | (s', Raised error) => (s', Raised error)
  | (s', Exited exitCode) => (s', Exited exitCode)
  end.

Definition emit (e : Event) : M unit := fun s =>
  ({| world := s.(world); client := s.(client); trace := s.(trace) ++ [e] |},
   Returned tt).

Definition throw {A} (error : Thrown) : M A := fun s => (s, Raised error).

(** [process.exit(code)], declared to return [never]: the host ends the
    process synchronously, so nothing that follows in the program is run,
    a pending [catch] or [finally] block included. *)
Definition process_exit {A} (exitCode : Z) : M A := fun s => (s, Exited exitCode).

Definition get_client : M (option Client) := fun s => (s, Returned s.(client)).

Definition set_client (c : Client) : M unit := fun s =>
  ({| world := s.(world); client := Some c; trace := s.(trace) |}, Returned tt).

(** Run a collaborator on the world and rethrow what it throws. *)
Definition call {A} (f : World -> World * (Thrown + A)) : M A := fun s =>
  match f s.(world) with
  | (w, inl error) =>
      ({| world := w; client := s.(client); trace := s.(trace) |}, Raised error)
  | (w, inr a) =>
      ({| world := w; client := s.(client); trace := s.(trace) |}, Returned a)
  end.

Definition call_method (m : Method) : M unit :=
  call (fun w => match m w with
                 | (w', Some error) => (w', inl error)
                 | (w', None) => (w', inr tt)
                 end).

(** [try { body } catch (error) { handle error } finally { cleanup }].
    A thrown exception enters [catch]; [finally] runs after the block
    completes or throws, and what [finally] throws replaces the pending
    completion. Once the process has exited neither runs. *)
Definition try_catch_finally {A} (body : M A) (handle : Thrown -> M A)
    (cleanup : M unit) : M A := fun s =>
  let caught :=
    match body s with
    | (s1, Raised error) => handle error s1
    | completed => completed
    end in
  match caught with
  | (s2, Exited exitCode) => (s2, Exited exitCode)
  | (s2, completion) =>
      match cleanup s2 with
      | (s3, Returned _) => (s3, completion)
      | (s3, Raised error) => (s3, Raised error)
      | (s3, Exited exitCode) => (s3, Exited exitCode)
      end
  end.

Local Notation "x <- m ;; k" := (bind m (fun x => k))
  (at level 100, m at next level, right associativity).
Local Notation "m ;; k" := (bind m (fun _ => k))
  (at level 100, right associativity).

(** The property key of [commands[commandName]]. *)
Definition property_key (commandName : option string) : string :=
  match commandName with Some n => n | None => "undefined" end.

Definition is_help_word (commandName : option string) : bool :=
  match commandName with Some n => String.eqb n "help" | None => false end.

(** The [finally] block of [runCli]. *)
Definition cleanup : M unit :=
  client <- get_client ;;
  match client with
  | Some c =>
      match c.(disconnect) with
      | Some m => emit Disconnect ;; call_method m
      | None => ret tt
      end
  | None => ret tt
  end.

(** The [try] block of [runCli]. *)
Definition attempt (newClient : ClientClass) (commandName : string)
    (commandDef : CommandDef) (data : Data) (globals : GlobalFlags) : M unit :=
  (* Instantiate client *)
  emit NewClient ;;
  client <- call newClient ;;
  set_client client ;;
  (* Apply global flags *)
  (if globals.(noCache)
   then match client.(disableCache) with
        | Some m => emit DisableCache ;; call_method m
        | None => ret tt
        end
   else ret tt) ;;
  (* Execute command *)
  emit (Handler commandName) ;;
  result <- call (commandDef.(handler) data client globals) ;;
  (* Output result as JSON *)
  text <- call (fun w => (w, JSON_stringify result)) ;;
  emit (ConsoleLog text) ;;
  process_exit 0.

(** The [catch] block of [runCli]. *)
Definition report (error : Thrown) : M unit :=
  emit (ConsoleError (thrown_message error)) ;; process_exit 1.

(** [runCli(commands, ClientClass, options)] with
    [process.argv.slice(2) = argv]. *)
Definition runCli (commands : CommandMap) (newClient : ClientClass)
    (options : option RunCliOptions) (argv : list string) : M unit :=
  let commandName := extractCommand argv in
  let rawArgs := parseArgs argv in
  let globals := extractGlobalFlags rawArgs in
  (* Handle help flag *)
  (if globals.(help) || negb (truthy_opt commandName) || is_help_word commandName
   then emit (ConsoleLog (generateHelp commands options)) ;; process_exit 0
   else ret tt) ;;
  (* Find command *)
  let commandName := property_key commandName in
  commandDef <-
    match lookup_command commands commandName with
    | None =>
        if inherited_member commandName
        then
          (* [commands[commandName]] is the inherited member: it is truthy
             and has no [schema], so reading [safeParse] from it throws,
             before the [try] block *)
          throw schema_missing
        else
          emit (ConsoleError ("Unknown command: " +:+ commandName +:+
                              ". Run with --help for available commands.")) ;;
          process_exit 1
    | Some def => ret def
    end ;;
  (* Validate arguments with Zod BEFORE instantiating client *)
  emit (SafeParse commandName) ;;
  data <-
    match safeParse commandDef.(schema) rawArgs with
    | ParseFailure error =>
        emit (ConsoleError (formatZodError error)) ;; process_exit 1
    | ParseSuccess data => ret data
    end ;;
  try_catch_finally
    (attempt newClient commandName commandDef data globals)
    report
    cleanup.

(** A run of the program from an initial world. *)
Definition run {A} (m : M A) (w : World) : State * Outcome A :=
  m {| world := w; client := None; trace := [] |}.

Definition events {A} (r : State * Outcome A) : list Event := (fst r).(trace).

Definition exit_code {A} (r : State * Outcome A) : option Z :=
  match snd r with Exited exitCode => Some exitCode | _ => None end.

End Runner.

Definition is_disconnect (e : Event) : bool :=
  match e with Disconnect => true | _ => false end.

Definition is_new_client (e : Event) : bool :=
  match e with NewClient => true | _ => false end.

(** How many times an event of a kind occurs in a trace. *)
Definition occurrences (kind : Event -> bool) (t : list Event) : nat :=
  length (filter (fun e => kind e = true) t).

End Validator.

(* ===================================================================== *)
(** * Notions the specification uses to state properties *)
(* ===================================================================== *)

Module Spec.
Import JsString Parser Js Zod Validator.

Definition is_hyphen (c : ascii) : bool := Ascii.eqb c "-".

(** [valid_from after_hyphen s]: [s] continues a hyphenated identifier;
    [after_hyphen] tells that a segment has to start here. *)
Fixpoint valid_from (after_hyphen : bool) (s : string) : bool :=
  match s with
  | EmptyString => negb after_hyphen
  | String c rest =>
      if is_hyphen c then negb after_hyphen && valid_from true rest
      else (is_lower c || is_digit c) && valid_from false rest
  end.

(** A hyphenated identifier: lowercase alphanumeric segments joined by
    single hyphens, no leading or trailing hyphen, no two hyphens in a
    row. *)
Definition valid_hyphenated (s : string) : bool := valid_from true s.

(** No upper-case letter occurs in the string. *)
Fixpoint no_upper (s : string) : bool :=
  match s with
  | EmptyString => true
  | String c rest => negb (is_upper c) && no_upper rest
  end.

(** The condition of the help short-circuit of the runner. *)
Definition help_requested (argv : list string) : bool :=
  (extractGlobalFlags (parseArgs argv)).(help)
  || negb (truthy_opt (extractCommand argv))
  || is_help_word (extractCommand argv).

(** The field the introspector reports for a schema whose outermost node
    is an effects layer. *)
Definition effects_field (name : string) (description : option string) : SchemaField :=
  {| name := name; type := "string"; required := true; default := None;
     field_description := description; enumValues := None |}.

(** Every token of the list is an option token. *)
Definition all_options (tokens : list string) : bool :=
  forallb (fun t => startsWith t "--") tokens.

End Spec.

(* ===================================================================== *)
(** * Concrete collaborators used to exercise the runner *)
(* ===================================================================== *)

Module Fixtures.
Import JsString Parser Js Zod Validator.

Fixpoint digits (s : string) (acc : Z) : option Z :=
  match s with
  | EmptyString => Some acc
  | String c rest =>
      if is_digit c
      then digits rest (10 * acc + Z.of_nat (nat_of_ascii c - 48))%Z
      else None
  end.

(** An unsigned decimal literal [ddd] or [ddd.ddd] as mantissa and
    number of fraction digits. *)
Definition unsigned_decimal (s : string) : option (Z * nat) :=
  match split s "." with
  | [whole] =>
      if truthy whole then m ← digits whole 0; Some (m, 0%nat) else None
  | [whole; fraction] =>
      if truthy (whole +:+ fraction)
      then m ← digits (whole +:+ fraction) 0; Some (m, String.length fraction)
      else None
  | _ => None
  end.

Definition ratio (m : Z) (k : nat) : number :=
  SFdiv 53 1024 (of_Z m) (of_Z (10 ^ Z.of_nat k)).

(** [Number(s)] on the empty string and on plain decimal literals short
    enough for mantissa and power of ten to be exact; every other string
    is taken to be no number. *)
Definition decimalToNumber (s : string) : number :=
  match s with
  | EmptyString => of_Z 0
  | String "-" rest =>
      match unsigned_decimal rest with
      | Some (m, k) => SFopp (ratio m k)
      | None => NaN
      end
  | _ =>
      match unsigned_decimal s with
      | Some (m, k) => ratio m k
      | None => NaN
      end
  end.

(** [String(n)] on integral values below 2^53. *)
Definition integralToString (n : number) : string :=
  match n with
  | S754_zero _ => "0"
  | S754_finite sign m e =>
      let magnitude :=
        if (0 <=? e)%Z then (Z.pos m * 2 ^ e)%Z else (Z.pos m / 2 ^ (- e))%Z in
      if isInteger n
      then (if sign then "-" else "") +:+ pretty magnitude
      else "NaN"
  | S754_infinity false => "Infinity"
  | S754_infinity true => "-Infinity"
  | S754_nan => "NaN"
  end.

#[export] Instance decimal_builtins : Builtins :=
  {| StringToNumber := decimalToNumber; NumberToString := integralToString |}.

(** A client with both capabilities; the world counts the calls to
    [disconnect]. *)
Definition counting_client : @Client nat :=
  {| disableCache := Some (fun w => (w, None));
     disconnect := Some (fun w => (S w, None)) |}.

Definition newCountingClient : @ClientClass nat :=
  fun w => (w, inr counting_client).

(** A validation engine that accepts everything, and one that requires
    the key [id]. *)
Definition acceptAll (_ : ZodType) (raw : RawArgs) : SafeParseReturn RawArgs :=
  ParseSuccess raw.

Definition requireId (_ : ZodType) (raw : RawArgs) : SafeParseReturn RawArgs :=
  match raw !! "id" with
  | Some _ => ParseSuccess raw
  | None =>
      ParseFailure
        {| issues := [ {| code := invalid_type "string" "undefined";
                          path := [PKey "id"]; message := "Required" |} ] |}
  end.

Definition stringifyText (result : string) : Thrown + string := inr result.

Definition emptyObject : ZodType := Schema (ZodObject []) None.

(** A handler that throws, and one that returns. *)
Definition failing : @CommandHandler nat RawArgs string :=
  fun _ _ _ w => (w, inl (ErrorObject "boom")).

Definition succeeding : @CommandHandler nat RawArgs string :=
  fun _ _ _ w => (w, inr "done").

Definition commands : @CommandMap nat RawArgs string :=
  [ ("sync", createCommand emptyObject failing (Some "Synchronise"));
    ("list", createCommand emptyObject succeeding None) ].

End Fixtures.

(* ===================================================================== *)
(** * Further notions for stating properties *)
(* ===================================================================== *)

Module Forms.
Import JsString Parser Js Zod Validator Spec.

(** [compact_from after_hyphen s]: no hyphen of [s] is followed by a
    lowercase letter; [after_hyphen] tells that a hyphen stands just
    before [s]. *)
Fixpoint compact_from (after_hyphen : bool) (s : string) : bool :=
  match s with
  | EmptyString => true
  | String c rest =>
      negb (after_hyphen && is_lower c) && compact_from (is_hyphen c) rest
  end.

(** A name in compact form: [kebabToCamel] has nothing left to replace. *)
Definition compact (s : string) : bool := compact_from false s.

(** No hyphen occurs in the string. *)
Fixpoint no_hyphen (s : string) : bool :=
  match s with
  | EmptyString => true
  | String c rest => negb (is_hyphen c) && no_hyphen rest
  end.

(** [toLowerCase] leaves every character of the string as it is. *)
Fixpoint lower_fixed (s : string) : bool :=
  match s with
  | EmptyString => true
  | String c rest => Ascii.eqb (lower_char c) c && lower_fixed rest
  end.

(** The only characters of the string that [toLowerCase] changes are the
    letters A to Z. *)
Fixpoint capitals_plain (s : string) : bool :=
  match s with
  | EmptyString => true
  | String c rest =>
      (is_upper c || Ascii.eqb (lower_char c) c) && capitals_plain rest
  end.

(** A schema under effects layers, outermost first. *)
Fixpoint wrap_effects (layers : list (Effect * option string)) (schema : ZodType)
    : ZodType :=
  match layers with
  | [] => schema
  | (effect, description) :: inner_layers =>
      Schema (ZodEffects (wrap_effects inner_layers schema) effect) description
  end.

Definition is_object (def : ZodTypeDef) : bool :=
  match def with ZodObject _ => true | _ => false end.

Definition is_effects (def : ZodTypeDef) : bool :=
  match def with ZodEffects _ _ => true | _ => false end.

(** No token of the list is an option token. *)
Definition all_positional (tokens : list string) : bool :=
  forallb (fun t => negb (startsWith t "--")) tokens.

(** The type name the introspector has for the four schema classes it
    recognises by themselves. *)
Definition base_type (def : ZodTypeDef) : option string :=
  match def with
  | ZodString _ => Some "string"
  | ZodNumber _ => Some "number"
  | ZodBoolean => Some "boolean"
  | ZodEnum _ => Some "enum"
  | _ => None
  end.

Definition enum_values (def : ZodTypeDef) : option (list string) :=
  match def with
  | ZodEnum values => Some values
  | _ => None
  end.

End Forms.

Module MoreFixtures.
Import JsString Parser Js Zod Validator Fixtures.

(** A client class whose constructor throws a value that is no [Error]. *)
Definition newBrokenClient : @ClientClass nat :=
  fun w => (w, inl (NonError "no credentials")).

(** A client without the optional capabilities. *)
Definition bare_client : @Client nat :=
  {| disableCache := None; disconnect := None |}.

Definition newBareClient : @ClientClass nat :=
  fun w => (w, inr bare_client).

(** A client whose [disableCache] adds 10 to the world. *)
Definition caching_client : @Client nat :=
  {| disableCache := Some (fun w => (10 + w, None))%nat; disconnect := None |}.

Definition newCachingClient : @ClientClass nat :=
  fun w => (w, inr caching_client).

End MoreFixtures.


Import JsString Parser Js Zod Validator Spec Forms.

(* ===================================================================== *)
(** * Properties of the name transcoder *)
(* ===================================================================== *)

Section Transcoder.

Ltac by_cases_on_char c :=
  destruct c as [[] [] [] [] [] [] [] []]; vm_compute;
  intros; try discriminate; repeat split; reflexivity.

Lemma upper_char_is_upper (c : ascii) :
  is_lower c = true ->
  is_upper (upper_char c) = true /\ lower_char (upper_char c) = c.
Proof. by_cases_on_char c. Qed.

Lemma segment_char_fixed (c : ascii) :
  is_lower c || is_digit c = true -> Ascii.eqb (lower_char c) c = true.
Proof. by_cases_on_char c. Qed.

Lemma fixed_char_not_upper (c : ascii) :
  Ascii.eqb (lower_char c) c = true -> is_upper c = false.
Proof. by_cases_on_char c. Qed.

Lemma kebabToCamel_two (a c : ascii) (r : string) :
  kebabToCamel (String a (String c r)) =
  if Ascii.eqb a "-" && is_lower c
  then String (upper_char c) (kebabToCamel r)
  else String a (kebabToCamel (String c r)).
Proof. reflexivity. Qed.

Lemma camelToKebab_plain (a : ascii) (k : string) :
  is_upper a = false ->
  camelToKebab (String a k) = String (lower_char a) (camelToKebab k).
Proof.
  intros Ha. unfold camelToKebab. cbn [hyphenate]. now rewrite Ha.
Qed.

Lemma camelToKebab_fixed (a : ascii) (k : string) :
  Ascii.eqb (lower_char a) a = true ->
  camelToKebab (String a k) = String a (camelToKebab k).
Proof.
  intros Ha. rewrite camelToKebab_plain by now apply fixed_char_not_upper.
  apply Ascii.eqb_eq in Ha. now rewrite Ha.
Qed.

Lemma camelToKebab_capital (c : ascii) (k : string) :
  is_lower c = true ->
  camelToKebab (String (upper_char c) k) = String "-" (String c (camelToKebab k)).
Proof.
  intros Hc. destruct (upper_char_is_upper c Hc) as [Hup Hback].
  unfold camelToKebab. cbn [hyphenate]. rewrite Hup.
  cbn [toLowerCase]. now rewrite Hback.
Qed.

(** The round trip holds as soon as [toLowerCase] leaves the input as it
    is; the proof follows the scan of [kebabToCamel], which advances by one
    or by two characters. *)
Lemma roundtrip_bounded (n : nat) :
  forall s, (String.length s <= n)%nat -> lower_fixed s = true ->
            camelToKebab (kebabToCamel s) = s.
Proof.
  induction n as [|n IH]; intros s Hlen Hfix.
  - destruct s; [reflexivity | cbn in Hlen; lia].
  - destruct s as [|a [|c r]]; [reflexivity | |].
    + cbn in Hfix. apply andb_prop in Hfix as [Ha _].
      cbn [kebabToCamel]. now rewrite camelToKebab_fixed.
    + rewrite kebabToCamel_two.
      cbn [lower_fixed] in Hfix.
      apply andb_prop in Hfix as [Ha Hrest].
      destruct (Ascii.eqb a "-" && is_lower c) eqn:Hstep.
      * apply andb_prop in Hstep as [Hhyphen Hlower].
        apply Ascii.eqb_eq in Hhyphen. subst a.
        rewrite camelToKebab_capital by assumption.
        cbn [lower_fixed] in Hrest. apply andb_prop in Hrest as [_ Hr].
        rewrite IH; [reflexivity | cbn in Hlen; lia | assumption].
      * rewrite camelToKebab_fixed by assumption.
        rewrite IH; [reflexivity | cbn in Hlen |- *; lia | assumption].
Qed.

Lemma roundtrip_lower_fixed (s : string) :
  lower_fixed s = true -> camelToKebab (kebabToCamel s) = s.
Proof. apply (roundtrip_bounded (String.length s)). lia. Qed.

Lemma valid_from_lower_fixed (s : string) :
  forall b, valid_from b s = true -> lower_fixed s = true.
Proof.
  induction s as [|c rest IH]; intros b Hv; [reflexivity|].
  cbn [valid_from] in Hv. cbn [lower_fixed].
  destruct (is_hyphen c) eqn:Hc.
  - apply andb_prop in Hv as [_ Hv].
    unfold is_hyphen in Hc. apply Ascii.eqb_eq in Hc. subst c.
    now rewrite (IH _ Hv).
  - apply andb_prop in Hv as [Hseg Hv].
    rewrite (segment_char_fixed _ Hseg). now rewrite (IH _ Hv).
Qed.

(** C5. For every hyphenated identifier [s] (lowercase alphanumeric
    segments joined by single hyphens, no leading or trailing hyphen, no
    consecutive hyphens), [camelToKebab (kebabToCamel s) = s]. *)
Theorem camelToKebab_kebabToCamel (s : string) :
  valid_hyphenated s = true -> camelToKebab (kebabToCamel s) = s.
Proof.
  intros Hvalid. apply roundtrip_lower_fixed.
  exact (valid_from_lower_fixed s true Hvalid).
Qed.

Lemma camelToKebab_kebabToCamel_witness :
  valid_hyphenated "include-line-items" = true /\
  kebabToCamel "include-line-items" = "includeLineItems" /\
  camelToKebab (kebabToCamel "include-line-items") = "include-line-items".
Proof.
  split; [reflexivity | split; [reflexivity |]].
  apply (camelToKebab_kebabToCamel "include-line-items"). reflexivity.
Defined.

End Transcoder.

(* ===================================================================== *)
(** * Properties of the tokenizer *)
(* ===================================================================== *)

Section Tokenizer.

Lemma includes_append (a b : string) (c : ascii) :
  includes (a +:+ b) c = includes a c || includes b c.
Proof.
  induction a as [|x a IH]; [reflexivity|].
  simpl. destruct (Ascii.eqb x c); [reflexivity | exact IH].
Qed.

Lemma split_nonempty (s : string) (c : ascii) : split s c <> [].
Proof.
  destruct s as [|a s]; cbn [split]; [discriminate|].
  destruct (Ascii.eqb a c); [discriminate|].
  destruct (split s c); discriminate.
Qed.

(** Splitting cuts at the first separator when the part before it has
    none. *)
Lemma split_at_first (k v : string) (c : ascii) :
  includes k c = false ->
  split (k +:+ String c v) c = k :: split v c.
Proof.
  induction k as [|x k IH]; intros Hk.
  - simpl. now rewrite Ascii.eqb_refl.
  - cbn [includes] in Hk. simpl.
    destruct (Ascii.eqb x c); [discriminate|].
    now rewrite (IH Hk).
Qed.

Lemma concat_push (sep : string) (a : ascii) (h : string) (t : list string) :
  String.concat sep (String a h :: t) = String a (String.concat sep (h :: t)).
Proof. destruct t; reflexivity. Qed.

Lemma concat_empty_head (sep : string) (h : string) (t : list string) :
  String.concat sep (EmptyString :: h :: t) = sep +:+ String.concat sep (h :: t).
Proof. reflexivity. Qed.

(** Joining what [split] produced gives the string back. *)
Lemma join_split (v : string) (c : ascii) :
  join (String c EmptyString) (split v c) = v.
Proof.
  unfold join. induction v as [|a v IH]; [reflexivity|].
  cbn [split]. destruct (Ascii.eqb a c) eqn:Hac.
  - apply Ascii.eqb_eq in Hac. subst a.
    destruct (split v c) as [|h t] eqn:Hs; [now apply split_nonempty in Hs|].
    rewrite concat_empty_head, IH. reflexivity.
  - destruct (split v c) as [|h t] eqn:Hs; [now apply split_nonempty in Hs|].
    now rewrite concat_push, IH.
Qed.

(** The scan reaches every option token: the tokens before it are
    processed on their own, whatever follows. *)
Lemma parseArgs_from_reaches (tok : string) (rest : list string) :
  startsWith tok "--" = true ->
  forall (n : nat) (pre : list string) (args : RawArgs),
    (length pre <= n)%nat ->
    parseArgs_from (pre ++ tok :: rest) args =
    parseArgs_from (tok :: rest) (parseArgs_from pre args).
Proof.
  intros Htok. set (continue := parseArgs_from (tok :: rest)).
  induction n as [|n IH]; intros pre args Hlen.
  - destruct pre; [reflexivity | cbn in Hlen; lia].
  - destruct pre as [|arg pre']; [reflexivity|].
    cbn [length] in Hlen.
    change ((arg :: pre') ++ tok :: rest)%list with (arg :: (pre' ++ tok :: rest))%list.
    cbn [parseArgs_from].
    destruct (negb (startsWith arg "--")); [apply IH; lia|].
    destruct (includes arg "=").
    { destruct (split (slice 2 arg) "="); apply IH; lia. }
    destruct (startsWith (slice 2 arg) "no-"); [apply IH; lia|].
    destruct pre' as [|nextArg pre''].
    + cbn [app]. rewrite Htok, andb_false_r. reflexivity.
    + cbn [app length] in *.
      destruct (truthy nextArg && negb (startsWith nextArg "--")).
      * apply IH; lia.
      * apply (IH (nextArg :: pre'')). cbn [length]; lia.
Qed.

Lemma parseArgs_reaches (pre : list string) (tok : string) (rest : list string) :
  startsWith tok "--" = true ->
  parseArgs (pre ++ tok :: rest) = parseArgs_from (tok :: rest) (parseArgs pre).
Proof.
  intros Htok. unfold parseArgs.
  now apply (parseArgs_from_reaches tok rest Htok (length pre)).
Qed.

(** A token that is not an option is skipped by the scan. *)
Lemma parseArgs_from_skip (tok : string) (rest : list string) (args : RawArgs) :
  startsWith tok "--" = false ->
  parseArgs_from (tok :: rest) args = parseArgs_from rest args.
Proof. intros Htok. cbn [parseArgs_from]. now rewrite Htok. Qed.

(** Assignment under any key but [__proto__] stores the value. *)
Lemma assign_stores (key : string) (v : RawValue) (args : RawArgs) :
  key <> "__proto__" -> assign key v args = <[key := v]> args.
Proof.
  intros Hkey. unfold assign.
  destruct (String.eqb key "__proto__") eqn:Heq; [|reflexivity].
  apply String.eqb_eq in Heq. contradiction.
Qed.

Lemma negation_token (name : string) (rest : list string) (args : RawArgs) :
  includes name "=" = false ->
  parseArgs_from (("--no-" +:+ name) :: rest) args =
  parseArgs_from rest (assign (kebabToCamel name) (RBool false) args).
Proof.
  intros Hname. cbn [parseArgs_from].
  change (startsWith ("--no-" +:+ name) "--") with true.
  change (includes ("--no-" +:+ name) "=") with (includes name "=").
  rewrite Hname. reflexivity.
Qed.

Lemma equals_token (k v : string) (rest : list string) (args : RawArgs) :
  includes k "=" = false ->
  parseArgs_from (("--" +:+ k +:+ "=" +:+ v) :: rest) args =
  parseArgs_from rest (assign (kebabToCamel k) (RStr v) args).
Proof.
  intros Hk. cbn [parseArgs_from].
  change (startsWith ("--" +:+ k +:+ "=" +:+ v) "--") with true.
  change (includes ("--" +:+ k +:+ "=" +:+ v) "=")
    with (includes (k +:+ "=" +:+ v) "=").
  rewrite includes_append. change (includes ("=" +:+ v) "=") with true.
  rewrite orb_true_r. cbn [negb].
  change (slice 2 ("--" +:+ k +:+ "=" +:+ v)) with (k +:+ String "=" v).
  rewrite (split_at_first k v "=" Hk).
  change "=" with (String "="%char EmptyString) at 1.
  now rewrite join_split.
Qed.



End Tokenizer.

Section TokenizerClaims.

Lemma option_token_body (tok : string) :
  startsWith tok "--" = true -> tok = "--" +:+ slice 2 tok.
Proof.
  destruct tok as [|a [|b body]]; intros Hp.
  - discriminate Hp.
  - change (Ascii.eqb "-" a && false = true) in Hp.
    rewrite andb_false_r in Hp. discriminate Hp.
  - change (Ascii.eqb "-" a && (Ascii.eqb "-" b && true) = true) in Hp.
    apply andb_prop in Hp as [Ha Hb]. apply andb_prop in Hb as [Hb _].
    apply Ascii.eqb_eq in Ha, Hb. subst a b. reflexivity.
Qed.

(** A string with a separator has a first one. *)
Lemma first_separator (s : string) (c : ascii) :
  includes s c = true ->
  exists k v, s = k +:+ String c v /\ includes k c = false.
Proof.
  induction s as [|a s IH]; cbn [includes]; [discriminate|].
  destruct (Ascii.eqb a c) eqn:Hac; intros Hs.
  - apply Ascii.eqb_eq in Hac. subst a. now exists EmptyString, s.
  - destruct (IH Hs) as (k & v & -> & Hk).
    exists (String a k), v. split; [reflexivity|].
    cbn [includes]. now rewrite Hac.
Qed.

(** C3. (What the code computes for the documented example.) Tokenizing
    ["--no-cache"; "--status=open"] does not yield
    { noCache: true, status: "open" }: the negation rule stores
    [cache := false], and the [noCache] global flag stays unset. *)
Theorem parseArgs_no_cache_example :
  parseArgs ["--no-cache"; "--status=open"]
    = <["status" := RStr "open"]> {["cache" := RBool false]}
  /\ parseArgs ["--no-cache"; "--status=open"]
    <> <["status" := RStr "open"]> {["noCache" := RBool true]}
  /\ (extractGlobalFlags (parseArgs ["--no-cache"; "--status=open"])).(noCache)
    = false.
Proof.
  split; [vm_compute; reflexivity|]. split; [|vm_compute; reflexivity].
  intros Heq. apply (f_equal (fun m : RawArgs => m !! "noCache")) in Heq.
  vm_compute in Heq. discriminate.
Qed.

(** C4 as stated fails for the name [__proto__]: the assignment meets the
    accessor every plain object inherits, and no key is set. *)
Lemma negation_of_proto_sets_nothing :
  includes "__proto__" "=" = false
  /\ parseArgs ["--no-" +:+ "__proto__"] = ∅
  /\ parseArgs ["--no-" +:+ "__proto__"] !! kebabToCamel "__proto__" = None.
Proof. repeat split; vm_compute; reflexivity. Qed.

(** C4 (amended). Wherever a token [--no-<name>] without equals sign
    stands in the argument list, and the compact form of [<name>] is not
    [__proto__], the scan sets the key [<name>] (in compact form) to
    [false] and goes on with the very next token: a following token that
    is no option is not taken as its value. *)
Theorem negation_sets_false (pre : list string) (name : string)
    (rest : list string) :
  includes name "=" = false ->
  kebabToCamel name <> "__proto__" ->
  parseArgs (pre ++ ("--no-" +:+ name) :: rest)
    = parseArgs_from rest (<[kebabToCamel name := RBool false]> (parseArgs pre))
  /\ (forall next, startsWith next "--" = false ->
        parseArgs (pre ++ ["--no-" +:+ name; next])
        = <[kebabToCamel name := RBool false]> (parseArgs pre))
  /\ parseArgs ["--no-dry-run"; "now"] = {["dryRun" := RBool false]}.
Proof.
  intros Hname Hkey.
  assert (Hstep : forall rest',
    parseArgs (pre ++ ("--no-" +:+ name) :: rest')
    = parseArgs_from rest' (<[kebabToCamel name := RBool false]> (parseArgs pre))).
  { intros rest'. rewrite parseArgs_reaches by reflexivity.
    rewrite negation_token by assumption. now rewrite assign_stores. }
  split; [apply Hstep|]. split; [|vm_compute; reflexivity].
  intros next Hnext. rewrite Hstep. now rewrite parseArgs_from_skip.
Qed.

Lemma negation_sets_false_witness :
  includes "dry-run" "=" = false /\
  kebabToCamel "dry-run" <> "__proto__" /\
  parseArgs (["--limit"; "5"] ++ ["--no-" +:+ "dry-run"; "now"])
  = <["dryRun" := RBool false]> (parseArgs ["--limit"; "5"]).
Proof.
  assert (Hkey : kebabToCamel "dry-run" <> "__proto__") by discriminate.
  split; [reflexivity | split; [exact Hkey|]].
  exact (proj1 (proj2 (negation_sets_false ["--limit"; "5"] "dry-run" []
                         eq_refl Hkey)) "now" eq_refl).
Defined.

(** C6 as stated fails for the key [__proto__]: the token
    [--__proto__=x] leaves the arguments object empty. *)
Lemma equals_of_proto_sets_nothing :
  startsWith "--__proto__=x" "--" = true
  /\ includes "--__proto__=x" "=" = true
  /\ parseArgs ["--__proto__=x"] = ∅
  /\ parseArgs ["--__proto__=x"] !! kebabToCamel "__proto__" = None.
Proof. repeat split; vm_compute; reflexivity. Qed.

(** C6 (amended). A token that contains an equals sign after the [--]
    prefix is split at its first equals sign only: the part before it, in
    compact form, is the key, and all that follows it, further equals
    signs included, is the string value assigned to the key, which stores
    it unless the key is [__proto__]. ["--key=a=b"] gives { key: "a=b" },
    ["--order-id=7=8"] gives { orderId: "7=8" }, and ["--key="] gives the
    empty string, which is not the boolean [true] of a bare ["--key"]. *)
Theorem equals_splits_at_first (pre : list string) (tok : string)
    (rest : list string) :
  startsWith tok "--" = true -> includes tok "=" = true ->
  (exists k v,
      tok = "--" +:+ k +:+ "=" +:+ v /\ includes k "=" = false /\
      parseArgs (pre ++ tok :: rest)
      = parseArgs_from rest (assign (kebabToCamel k) (RStr v) (parseArgs pre)) /\
      (kebabToCamel k <> "__proto__" ->
       parseArgs (pre ++ tok :: rest)
       = parseArgs_from rest (<[kebabToCamel k := RStr v]> (parseArgs pre))))
  /\ parseArgs ["--key=a=b"] = {["key" := RStr "a=b"]}
  /\ parseArgs ["--order-id=7=8"] = {["orderId" := RStr "7=8"]}
  /\ parseArgs ["--include-line-items="] = {["includeLineItems" := RStr ""]}
  /\ parseArgs ["--key="] = {["key" := RStr ""]}
  /\ parseArgs ["--key"] = {["key" := RBool true]}
  /\ RStr "" <> RBool true.
Proof.
  intros Hopt Heq. split.
  - rewrite (option_token_body tok Hopt) in Heq.
    change (includes ("--" +:+ slice 2 tok) "=")
      with (includes (slice 2 tok) "=") in Heq.
    destruct (first_separator _ _ Heq) as (k & v & Hbody & Hk).
    exists k, v.
    assert (Htok : tok = "--" +:+ k +:+ "=" +:+ v).
    { rewrite (option_token_body tok Hopt) at 1. now rewrite Hbody. }
    assert (Hparse : parseArgs (pre ++ tok :: rest)
                     = parseArgs_from rest
                         (assign (kebabToCamel k) (RStr v) (parseArgs pre))).
    { rewrite parseArgs_reaches by exact Hopt.
      rewrite Htok. now apply equals_token. }
    split; [exact Htok|]. split; [exact Hk|]. split; [exact Hparse|].
    intros Hkey. rewrite Hparse. now rewrite assign_stores.
  - repeat split; try (vm_compute; reflexivity). discriminate.
Qed.

Lemma equals_splits_at_first_witness :
  startsWith "--sort-by=a=b=c" "--" = true /\
  includes "--sort-by=a=b=c" "=" = true /\
  exists k v,
    "--sort-by=a=b=c" = "--" +:+ k +:+ "=" +:+ v /\ includes k "=" = false /\
    parseArgs (["list"] ++ "--sort-by=a=b=c" :: ["--verbose"])
    = parseArgs_from ["--verbose"]
        (assign (kebabToCamel k) (RStr v) (parseArgs ["list"])) /\
    (kebabToCamel k <> "__proto__" ->
     parseArgs (["list"] ++ "--sort-by=a=b=c" :: ["--verbose"])
     = parseArgs_from ["--verbose"]
         (<[kebabToCamel k := RStr v]> (parseArgs ["list"]))).
Proof.
  split; [reflexivity | split; [reflexivity|]].
  exact (proj1 (equals_splits_at_first ["list"] "--sort-by=a=b=c" ["--verbose"]
                  eq_refl eq_refl)).
Defined.



End TokenizerClaims.

(* ===================================================================== *)
(** * Properties of the coercion helpers and of the introspector *)
(* ===================================================================== *)

Section Coercion.
Context `{Builtins}.

Lemma parse_int (min max : option number) (val : value) :
  parse (cliTypes.int min max) val
  = parse_number (cliTypes.with_max max (cliTypes.with_min min [CheckInt]))
      (cliTypes.int_preprocess val).
Proof. reflexivity. Qed.

Lemma int_preprocess_cases (val : value) :
  (cliTypes.int_preprocess val = VUndefined /\
   (val = VString "" \/ val = VUndefined \/ val = VNull))
  \/ (cliTypes.int_preprocess val = VNumber NaN /\ isInteger (Number val) = false)
  \/ (cliTypes.int_preprocess val = VNumber (Number val) /\
      isInteger (Number val) = true).
Proof.
  unfold cliTypes.int_preprocess.
  destruct val as [| | b | s | n]; cbn [is_empty_string is_undefined is_null orb];
    try (left; split; [reflexivity | tauto]);
    try destruct s as [|c s]; cbn [orb];
    try (left; split; [reflexivity | tauto]);
    match goal with
    | |- context [isInteger ?x] =>
        destruct (isInteger x) eqn:Hint; cbn [negb]; [right; right | right; left];
        split; reflexivity || assumption
    end.
Qed.

Lemma parse_number_rejects_nan (checks : list NumberCheck) :
  parse_number checks (VNumber NaN) = PInvalid [invalid_type "number" "nan"].
Proof. reflexivity. Qed.

Lemma parse_number_rejects_undefined (checks : list NumberCheck) :
  parse_number checks VUndefined = PInvalid [invalid_type "number" "undefined"].
Proof. reflexivity. Qed.

Lemma parse_number_keeps_input (checks : list NumberCheck) (input data : value) :
  parse_number checks input = POk data -> data = input.
Proof.
  unfold parse_number. destruct input as [| | | | n]; try discriminate.
  destruct n; try discriminate;
    destruct (concat _); try discriminate; now intros [= <-].
Qed.

(** C8. [cliTypes.int()]: the empty string, [undefined] and [null] are
    preprocessed to [undefined] (no value), which the number schema does
    not accept as a number; an input whose numeric conversion is not an
    integer, such as "3.5", is preprocessed to [NaN], which the number
    schema rejects; and a value that is accepted is the conversion itself,
    an integer, never a rounded one. *)
Theorem int_coercion (min max : option number) (val : value) :
  (cliTypes.int_preprocess (VString "") = VUndefined
   /\ cliTypes.int_preprocess VUndefined = VUndefined
   /\ cliTypes.int_preprocess VNull = VUndefined)
  /\ (cliTypes.int_preprocess val = VUndefined ->
      parse (cliTypes.int min max) val
      = PInvalid [invalid_type "number" "undefined"])
  /\ (val <> VString "" -> val <> VUndefined -> val <> VNull ->
      isInteger (Number val) = false ->
      cliTypes.int_preprocess val = VNumber NaN
      /\ parse (cliTypes.int min max) val = PInvalid [invalid_type "number" "nan"])
  /\ (forall data, parse (cliTypes.int min max) val = POk data ->
      data = VNumber (Number val) /\ isInteger (Number val) = true)
  /\ (StringToNumber "3.5" = three_and_a_half ->
      accepts (cliTypes.int min max) (VString "3.5") = false).
Proof.
  split; [repeat split|]. split; [|split; [|split]].
  - intros Hpre. now rewrite parse_int, Hpre.
  - intros Hs Hu Hn Hint.
    destruct (int_preprocess_cases val) as [[_ Habs] | [[Hpre _] | [_ Hyes]]].
    + destruct Habs as [-> | [-> | ->]]; contradiction.
    + split; [exact Hpre|]. now rewrite parse_int, Hpre.
    + congruence.
  - intros data Hok. rewrite parse_int in Hok.
    destruct (int_preprocess_cases val) as [[Hpre _] | [[Hpre _] | [Hpre Hyes]]];
      rewrite Hpre in Hok.
    + discriminate Hok.
    + discriminate Hok.
    + split; [|exact Hyes]. now apply parse_number_keeps_input in Hok.
  - intros Hconv. unfold accepts. rewrite parse_int.
    unfold cliTypes.int_preprocess. cbn [is_empty_string is_undefined is_null orb Number].
    rewrite Hconv. reflexivity.
Qed.

Lemma lookup_map {A B} (f : A -> B) (l : list A) (i : nat) :
  map f l !! i = option_map f (l !! i).
Proof.
  revert i. induction l as [|x l IH]; intros [|i]; try reflexivity.
  cbn. apply IH.
Qed.

(** C9. A schema field whose schema is a preprocess/effects layer, as
    [cliTypes.int], [float], [bool] and [limit] produce, is reported by
    [extractSchemaFields] with type "string", required, and without
    default, whatever the wrapped schema is; [cliTypes.limit(50, 250)] is
    rendered as a required string option. *)
Theorem effects_field_reported (schema : ZodType)
    (shape : list (string * ZodType)) (i : nat) (fieldName : string)
    (inner : ZodType) (effect : Effect) (d : option string) :
  def_of (unwrapEffects schema) = ZodObject shape ->
  shape !! i = Some (fieldName, Schema (ZodEffects inner effect) d) ->
  extractSchemaFields schema !! i = Some (effects_field fieldName d)
  /\ (forall min max,
        extractField fieldName (cliTypes.int min max) = effects_field fieldName None
        /\ extractField fieldName (cliTypes.float min max) = effects_field fieldName None
        /\ extractField fieldName cliTypes.bool = effects_field fieldName None
        /\ extractField fieldName (cliTypes.limit min max) = effects_field fieldName None)
  /\ fieldLine (extractField "limit" (cliTypes.limit (Some (of_Z 50)) (Some (of_Z 250))))
     = "      --limit <string> (required)".
Proof.
  intros Hobj Hfield. split; [|split; [intros; repeat split | reflexivity]].
  unfold extractSchemaFields. rewrite Hobj, lookup_map, Hfield. reflexivity.
Qed.

End Coercion.

Lemma int_coercion_witness :
  @StringToNumber Fixtures.decimal_builtins "3.5" = three_and_a_half /\
  accepts (@cliTypes.int Fixtures.decimal_builtins None (Some (of_Z 10)))
    (VString "3.5") = false.
Proof.
  split; [vm_compute; reflexivity|].
  apply (@int_coercion Fixtures.decimal_builtins None (Some (of_Z 10)) (VString "3.5")).
  vm_compute. reflexivity.
Defined.

Lemma effects_field_reported_witness :
  def_of (unwrapEffects
            (Schema (ZodObject
                       [("orderId", Schema (ZodString (fun _ => [])) (Some "Order ID"));
                        ("limit", @cliTypes.limit Fixtures.decimal_builtins None None)])
                    None))
  = ZodObject [("orderId", Schema (ZodString (fun _ => [])) (Some "Order ID"));
               ("limit", @cliTypes.limit Fixtures.decimal_builtins None None)] /\
  extractSchemaFields
    (Schema (ZodObject
               [("orderId", Schema (ZodString (fun _ => [])) (Some "Order ID"));
                ("limit", @cliTypes.limit Fixtures.decimal_builtins None None)])
            None) !! 1%nat
  = Some (effects_field "limit" None).
Proof.
  split; [reflexivity|].
  refine (proj1 (@effects_field_reported Fixtures.decimal_builtins
                   _ _ 1 "limit" _ _ None _ _)); reflexivity.
Defined.

(* ===================================================================== *)
(** * Properties of the runner *)
(* ===================================================================== *)

Section RunnerClaims.
Context `{Builtins}.
Context {World Data Result : Type}.
Context (safeParse : ZodType -> RawArgs -> SafeParseReturn Data).
Context (JSON_stringify : Result -> Thrown + string).

Abbreviation CommandMap := (@CommandMap World Data Result).
Abbreviation ClientClass := (@ClientClass World).
Abbreviation runCli := (runCli safeParse JSON_stringify).

(** The run when the help short-circuit applies. *)
Lemma runCli_help (commands : CommandMap) (newClient : ClientClass)
    (options : option RunCliOptions) (argv : list string) (w : World) :
  help_requested argv = true ->
  run (runCli commands newClient options argv) w
  = ({| world := w; client := None;
        trace := [ConsoleLog (generateHelp commands options)] |}, Exited 0).
Proof.
  intros Hhelp. unfold run, Validator.runCli, bind.
  unfold help_requested in Hhelp. rewrite Hhelp. reflexivity.
Qed.

(** The run of an unregistered command outside the help short-circuit. *)
Lemma runCli_unknown (commands : CommandMap) (newClient : ClientClass)
    (options : option RunCliOptions) (argv : list string) (w : World)
    (name : string) :
  help_requested argv = false ->
  extractCommand argv = Some name ->
  lookup_command commands name = None ->
  inherited_member name = false ->
  run (runCli commands newClient options argv) w
  = ({| world := w; client := None;
        trace := [ConsoleError ("Unknown command: " +:+ name +:+
                                ". Run with --help for available commands.")] |},
     Exited 1).
Proof.
  intros Hhelp Hcmd Hlookup Hown. unfold run, Validator.runCli, bind.
  unfold help_requested in Hhelp. rewrite Hhelp, Hcmd.
  cbn [ret property_key]. rewrite Hlookup, Hown. reflexivity.
Qed.

(** The run of an unregistered command whose name is that of an inherited
    member: the lookup finds the member, and reading its schema throws
    before anything is printed. *)
Lemma runCli_inherited (commands : CommandMap) (newClient : ClientClass)
    (options : option RunCliOptions) (argv : list string) (w : World)
    (name : string) :
  help_requested argv = false ->
  extractCommand argv = Some name ->
  lookup_command commands name = None ->
  inherited_member name = true ->
  run (runCli commands newClient options argv) w
  = ({| world := w; client := None; trace := [] |}, Raised schema_missing).
Proof.
  intros Hhelp Hcmd Hlookup Hinh. unfold run, Validator.runCli, bind.
  unfold help_requested in Hhelp. rewrite Hhelp, Hcmd.
  cbn [ret property_key]. rewrite Hlookup, Hinh. reflexivity.
Qed.

(** The run of a registered command whose arguments fail validation. *)
Lemma runCli_invalid (commands : CommandMap) (newClient : ClientClass)
    (options : option RunCliOptions) (argv : list string) (w : World)
    (name : string) (def : CommandDef) (error : ZodError) :
  help_requested argv = false ->
  extractCommand argv = Some name ->
  lookup_command commands name = Some def ->
  safeParse def.(schema) (parseArgs argv) = ParseFailure error ->
  run (runCli commands newClient options argv) w
  = ({| world := w; client := None;
        trace := [SafeParse name; ConsoleError (formatZodError error)] |},
     Exited 1).
Proof.
  intros Hhelp Hcmd Hlookup Hparse. unfold run, Validator.runCli, bind.
  unfold help_requested in Hhelp. rewrite Hhelp, Hcmd.
  cbn [ret property_key]. rewrite Hlookup. cbn [emit ret]. rewrite Hparse.
  reflexivity.
Qed.

Lemma append_empty (s : string) : s +:+ "" = s.
Proof.
  induction s as [|c s IH]; [reflexivity|].
  change (String c (s +:+ "") = String c s). now rewrite IH.
Qed.

Lemma append_associative (a b c : string) : (a +:+ b) +:+ c = a +:+ b +:+ c.
Proof.
  induction a as [|x a IH]; [reflexivity|].
  change (String x ((a +:+ b) +:+ c) = String x (a +:+ b +:+ c)). now rewrite IH.
Qed.

(** An element of a joined list stands in the text as it is. *)
Lemma join_holds (sep : string) (before : list string) (x : string)
    (after : list string) :
  exists prefix suffix,
    join sep (before ++ x :: after) = prefix +:+ x +:+ suffix.
Proof.
  unfold join. induction before as [|y before IH].
  - destruct after as [|z after].
    + exists "", "". simpl. now rewrite append_empty.
    + exists "", (sep +:+ String.concat sep (z :: after)). reflexivity.
  - destruct IH as (prefix & suffix & IH).
    exists (y +:+ sep +:+ prefix), suffix.
    change ((y :: before) ++ x :: after)%list with (y :: (before ++ x :: after))%list.
    destruct (before ++ x :: after)%list as [|h t] eqn:Hrest.
    { now destruct before. }
    change (String.concat sep (y :: h :: t))
      with (y +:+ sep +:+ String.concat sep (h :: t)).
    rewrite IH. now rewrite !append_associative.
Qed.

Lemma command_lines_hold (before : list string) (c1 c2 : CommandMap)
    (name : string) (def : CommandDef) :
  exists prefix suffix,
    join nl
      (before ++
       concat (map (fun '(name, def) =>
                      [generateCommandHelp name def.(schema) def.(description); ""])
                   (c1 ++ (name, def) :: c2)))
    = prefix +:+ generateCommandHelp name def.(schema) def.(description)
        +:+ suffix.
Proof.
  rewrite map_app, concat_app. cbn [map concat]. rewrite app_assoc.
  cbn [app]. apply join_holds.
Qed.

(** The block of every registered command stands in the help text. *)
Lemma generateHelp_holds_command (commands : CommandMap)
    (options : option RunCliOptions) (name : string) (def : CommandDef) :
  In (name, def) commands ->
  exists prefix suffix,
    generateHelp commands options
    = prefix +:+ generateCommandHelp name def.(schema) def.(description)
        +:+ suffix.
Proof.
  intros Hin. apply in_split in Hin as (c1 & c2 & ->).
  unfold generateHelp. cbv zeta. apply command_lines_hold.
Qed.

(** C7. If the global help flag is set, or no command token was given,
    or the command token is "help", the run prints the full help text
    and ends the process with exit code 0; nothing else happens: no
    validation, no client, no handler. The help text holds the block of
    every registered command; for a program "my-cli" with the commands
    get-order and cache-clear it is the text shown. *)
Theorem help_short_circuit (commands : CommandMap) (newClient : ClientClass)
    (options : option RunCliOptions) (argv : list string) (w : World) :
  (extractGlobalFlags (parseArgs argv)).(help) = true
  \/ extractCommand argv = None
  \/ extractCommand argv = Some "help" ->
  run (runCli commands newClient options argv) w
  = ({| world := w; client := None;
        trace := [ConsoleLog (generateHelp commands options)] |}, Exited 0)
  /\ (forall name def, In (name, def) commands ->
        exists prefix suffix,
          generateHelp commands options
          = prefix +:+ generateCommandHelp name def.(schema) def.(description)
              +:+ suffix)
  /\ (forall h : @CommandHandler World Data Result,
        generateHelp
          [("get-order",
            createCommand
              (Schema (ZodObject
                 [("orderId", Schema (ZodString (fun _ => [])) (Some "Order ID"));
                  ("status",
                   Schema (ZodOptional (Schema (ZodEnum ["open"; "closed"]) None))
                          None);
                  ("limit", cliTypes.limit None None);
                  ("dryRun",
                   Schema (ZodDefault (Schema ZodBoolean None) (VBool false)) None)])
                 None)
              h (Some "Retrieve an order by ID"));
           ("cache-clear",
            createCommand (Schema (ZodObject []) None) h
              (Some "Clear all cached data"))]
          (Some {| programName := Some "my-cli";
                   program_description := Some "My CLI tool" |})
        = "my-cli
  My CLI tool

Usage:
  npx tsx my-cli.ts <command> [options]

Global Options:
  --help, -h      Show this help message
  --no-cache      Disable caching for this request
  --verbose       Enable verbose output

Commands:
  get-order
    Retrieve an order by ID
    Options:
      --order-id <string> (required) - Order ID
      --status open|closed (optional)
      --limit <string> (required)
      --dry-run <boolean> (default: false)

  cache-clear
    Clear all cached data
").
Proof.
  intros Hcase. split; [|split].
  - apply runCli_help. unfold help_requested.
    destruct Hcase as [-> | [-> | ->]]; [reflexivity | |].
    + cbn [truthy_opt negb is_help_word]. now rewrite orb_true_r.
    + change (is_help_word (Some "help")) with true. now rewrite orb_true_r.
  - intros name def Hin. now apply generateHelp_holds_command.
  - intros h. vm_compute. reflexivity.
Qed.

(** C2 (amended). When the command token is not a registered command
    name, or the schema rejects the raw arguments, the client class is
    never instantiated; the process ends with exit code 1, unless the help
    short-circuit applies, in which case it ends with exit code 0. (The
    exit code is stated for every run but that of an unregistered token,
    outside the help short-circuit, that names a member inherited from
    [Object.prototype].) *)
Theorem invalid_run_never_constructs (commands : CommandMap)
    (newClient : ClientClass) (options : option RunCliOptions)
    (argv : list string) (w : World) (name : string) :
  extractCommand argv = Some name ->
  (lookup_command commands name = None
   \/ exists def error,
       lookup_command commands name = Some def /\
       safeParse def.(schema) (parseArgs argv) = ParseFailure error) ->
  occurrences is_new_client
    (events (run (runCli commands newClient options argv) w)) = 0%nat
  /\ (help_requested argv = true
      \/ is_Some (lookup_command commands name)
      \/ inherited_member name = false ->
      exit_code (run (runCli commands newClient options argv) w)
      = Some (if help_requested argv then 0 else 1)%Z)
  /\ (inherited_member "constructor" = true
      /\ inherited_member "toString" = true
      /\ inherited_member "__proto__" = true
      /\ inherited_member "deploy" = false).
Proof.
  intros Hcmd Hcase.
  split; [|split; [|repeat split; reflexivity]];
    destruct (help_requested argv) eqn:Hhelp;
    try (rewrite runCli_help by assumption; reflexivity);
    destruct Hcase as [Hnone | (def & error & Hsome & Hfail)];
    try (rewrite (runCli_invalid _ _ _ _ _ name def error) by assumption;
         reflexivity);
    destruct (inherited_member name) eqn:Hinh;
    try (rewrite (runCli_unknown _ _ _ _ _ name) by assumption; reflexivity).
  - rewrite (runCli_inherited _ _ _ _ _ name) by assumption. reflexivity.
  - intros [Hh | [[d Hd] | Hown]]; [discriminate | congruence | discriminate].
Qed.

(** The run of a registered command with valid arguments: the guarded
    block, entered after validation. *)
Lemma runCli_valid (commands : CommandMap) (newClient : ClientClass)
    (options : option RunCliOptions) (argv : list string) (w : World)
    (name : string) (def : CommandDef) (data : Data) :
  help_requested argv = false ->
  extractCommand argv = Some name ->
  lookup_command commands name = Some def ->
  safeParse def.(schema) (parseArgs argv) = ParseSuccess data ->
  run (runCli commands newClient options argv) w
  = try_catch_finally
      (attempt JSON_stringify newClient name def data
         (extractGlobalFlags (parseArgs argv)))
      report cleanup
      {| world := w; client := None; trace := [SafeParse name] |}.
Proof.
  intros Hhelp Hcmd Hlookup Hparse. unfold run, Validator.runCli, bind.
  unfold help_requested in Hhelp. rewrite Hhelp, Hcmd.
  cbn [ret property_key]. rewrite Hlookup. cbn [emit ret]. rewrite Hparse.
  reflexivity.
Qed.

Lemma occurrences_snoc (kind : Event -> bool) (t : list Event) (e : Event) :
  occurrences kind (t ++ [e])
  = (occurrences kind t + if kind e then 1 else 0)%nat.
Proof.
  unfold occurrences. rewrite filter_app, length_app.
  destruct (kind e) eqn:He.
  - rewrite filter_cons_True by assumption. reflexivity.
  - rewrite filter_cons_False by (rewrite He; discriminate). reflexivity.
Qed.

(** The [finally] block disconnects a client that has the capability,
    once, when control reaches it. *)
Lemma cleanup_disconnects (s : @State World) (c : @Client World)
    (m : @Method World) :
  s.(client) = Some c -> c.(disconnect) = Some m ->
  (fst (cleanup s)).(trace) = (s.(trace) ++ [Disconnect])%list.
Proof.
  intros Hc Hm. unfold cleanup, bind, get_client, emit, call_method, call.
  rewrite Hc, Hm. cbn. destruct (m (world s)) as [w' [e|]]; reflexivity.
Qed.

(** Control never reaches it: every completion of the guarded block is a
    [process.exit], in the [try] block or in the [catch] block. *)
Lemma guarded_block_exits (newClient : ClientClass) (name : string)
    (def : CommandDef) (data : Data) (globals : GlobalFlags)
    (s : @State World) :
  let r := try_catch_finally
             (attempt JSON_stringify newClient name def data globals)
             report cleanup s in
  (exit_code r = Some 0%Z \/ exit_code r = Some 1%Z)
  /\ occurrences is_disconnect (events r) = occurrences is_disconnect s.(trace)
  /\ occurrences is_new_client (events r)
     = S (occurrences is_new_client s.(trace)).
Proof.
  unfold try_catch_finally, attempt, report, bind, call_method, call, emit,
    set_client, ret, process_exit, exit_code, events.
  cbn [world client trace fst snd].
  destruct (newClient (world s)) as [w1 [e1 | c]]; cbn [world client trace fst snd].
  { rewrite !occurrences_snoc. cbn. split; [now right | split; lia]. }
  destruct (noCache globals); cbn [world client trace fst snd].
  - destruct (disableCache c) as [m|]; cbn [world client trace fst snd].
    + destruct (m w1) as [w2 [e2|]]; cbn [world client trace fst snd].
      { rewrite !occurrences_snoc. cbn. split; [now right | split; lia]. }
      destruct (handler def data c globals w2) as [w3 [e3 | result]];
        cbn [world client trace fst snd].
      { rewrite !occurrences_snoc. cbn. split; [now right | split; lia]. }
      destruct (JSON_stringify result) as [e4 | text];
        cbn [world client trace fst snd];
        rewrite !occurrences_snoc; cbn; (split; [tauto | split; lia]).
    + destruct (handler def data c globals w1) as [w3 [e3 | result]];
        cbn [world client trace fst snd].
      { rewrite !occurrences_snoc. cbn. split; [now right | split; lia]. }
      destruct (JSON_stringify result) as [e4 | text];
        cbn [world client trace fst snd];
        rewrite !occurrences_snoc; cbn; (split; [tauto | split; lia]).
  - destruct (handler def data c globals w1) as [w3 [e3 | result]];
      cbn [world client trace fst snd].
    { rewrite !occurrences_snoc. cbn. split; [now right | split; lia]. }
    destruct (JSON_stringify result) as [e4 | text];
      cbn [world client trace fst snd];
      rewrite !occurrences_snoc; cbn; (split; [tauto | split; lia]).
Qed.

(** No run of [runCli] calls [disconnect]: every run ends in
    [process.exit] with code 0 or 1, or in the exception of a command name
    that is an inherited member. *)
Lemma runCli_never_disconnects (commands : CommandMap) (newClient : ClientClass)
    (options : option RunCliOptions) (argv : list string) (w : World) :
  occurrences is_disconnect
    (events (run (runCli commands newClient options argv) w)) = 0%nat
  /\ (exit_code (run (runCli commands newClient options argv) w) = Some 0%Z
      \/ exit_code (run (runCli commands newClient options argv) w) = Some 1%Z
      \/ snd (run (runCli commands newClient options argv) w)
         = Raised schema_missing).
Proof.
  destruct (help_requested argv) eqn:Hhelp.
  { rewrite runCli_help by assumption. split; [reflexivity | now left]. }
  destruct (extractCommand argv) as [name|] eqn:Hcmd.
  2:{ unfold help_requested in Hhelp. rewrite Hcmd in Hhelp.
      cbn [truthy_opt negb] in Hhelp. rewrite orb_true_r in Hhelp.
      discriminate Hhelp. }
  destruct (lookup_command commands name) as [def|] eqn:Hlookup.
  2:{ destruct (inherited_member name) eqn:Hinh.
      - rewrite (runCli_inherited _ _ _ _ _ name) by assumption.
        split; [reflexivity | now right; right].
      - rewrite (runCli_unknown _ _ _ _ _ name) by assumption.
        split; [reflexivity | now right; left]. }
  destruct (safeParse def.(schema) (parseArgs argv)) as [data | error] eqn:Hparse.
  2:{ rewrite (runCli_invalid _ _ _ _ _ name def error) by assumption.
      split; [reflexivity | now right; left]. }
  rewrite (runCli_valid _ _ _ _ _ name def data) by assumption.
  destruct (guarded_block_exits newClient name def data
              (extractGlobalFlags (parseArgs argv))
              {| world := w; client := None; trace := [SafeParse name] |})
    as (Hexit & Hdisc & _).
  split; [exact Hdisc|]. destruct Hexit as [H0 | H1]; [now left | now right; left].
Qed.

End RunnerClaims.

(* ===================================================================== *)
(** * The runner on concrete collaborators *)
(* ===================================================================== *)

Section RunnerExamples.
Import Fixtures.

Abbreviation cli := (runCli acceptAll stringifyText commands newCountingClient None).
Abbreviation strict_cli := (runCli requireId stringifyText commands newCountingClient None).

(** C1. (What the code does when a handler throws.) The command "sync"
    is registered, its arguments are valid, the client is constructed and
    has a [disconnect] method, and the handler throws: the run reports the
    error and ends the process with exit code 1 from inside the [catch]
    block, so the [finally] block is not run and [disconnect] is called
    zero times, not once. *)
Theorem handler_exception_skips_teardown :
  run (cli ["sync"]) 0%nat
  = ({| world := 0%nat; client := Some counting_client;
        trace := [SafeParse "sync"; NewClient; Handler "sync"; ConsoleError "boom"] |},
     Exited 1)
  /\ is_Some counting_client.(disconnect)
  /\ occurrences is_disconnect (events (run (cli ["sync"]) 0%nat)) = 0%nat
  /\ exit_code (run (cli ["sync"]) 0%nat) = Some 1%Z.
Proof.
  split; [vm_compute; reflexivity|]. split; [eexists; reflexivity|].
  split; vm_compute; reflexivity.
Qed.

(** C2 as stated fails: with the help flag, or with the unregistered
    word "help" as command token, or with invalid arguments next to the
    help flag, the process ends with exit code 0. *)
Lemma unregistered_command_exits_zero :
  (extractCommand ["deploy"; "--help"] = Some "deploy"
   /\ lookup_command commands "deploy" = None
   /\ exit_code (run (cli ["deploy"; "--help"]) 0%nat) = Some 0%Z
   /\ exit_code (run (cli ["deploy"; "--help"]) 0%nat) <> Some 1%Z)
  /\ (extractCommand ["help"] = Some "help"
      /\ lookup_command commands "help" = None
      /\ exit_code (run (cli ["help"]) 0%nat) = Some 0%Z)
  /\ (extractCommand ["list"; "--help"] = Some "list"
      /\ (exists def error,
             lookup_command commands "list" = Some def /\
             requireId def.(schema) (parseArgs ["list"; "--help"])
             = ParseFailure error)
      /\ exit_code (run (strict_cli ["list"; "--help"]) 0%nat) = Some 0%Z).
Proof.
  repeat split; try (vm_compute; reflexivity).
  - vm_compute. discriminate.
  - eexists _, _. split; vm_compute; reflexivity.
Qed.

(** An unregistered command token that names an inherited member: the
    lookup finds the member, no "unknown command" message is printed and
    the run ends in the exception. *)
Lemma inherited_command_name_throws :
  lookup_command commands "constructor" = None
  /\ run (cli ["constructor"]) 0%nat
     = ({| world := 0%nat; client := None; trace := [] |}, Raised schema_missing)
  /\ run (cli ["deploy"]) 0%nat
     = ({| world := 0%nat; client := None;
           trace := [ConsoleError
                       "Unknown command: deploy. Run with --help for available commands."] |},
        Exited 1).
Proof. repeat split; vm_compute; reflexivity. Qed.

Lemma invalid_run_never_constructs_witness :
  extractCommand ["list"; "--limit"; "5"] = Some "list"
  /\ (exists def error,
         lookup_command commands "list" = Some def /\
         requireId def.(schema) (parseArgs ["list"; "--limit"; "5"])
         = ParseFailure error)
  /\ occurrences is_new_client
       (events (run (strict_cli ["list"; "--limit"; "5"]) 0%nat)) = 0%nat
  /\ exit_code (run (strict_cli ["list"; "--limit"; "5"]) 0%nat) = Some 1%Z.
Proof.
  assert (Hfail : exists def error,
             lookup_command commands "list" = Some def /\
             requireId def.(schema) (parseArgs ["list"; "--limit"; "5"])
             = ParseFailure error).
  { eexists _, _. split; vm_compute; reflexivity. }
  split; [reflexivity | split; [exact Hfail|]].
  destruct (invalid_run_never_constructs requireId stringifyText commands
              newCountingClient None ["list"; "--limit"; "5"] 0%nat "list"
              eq_refl (or_intror Hfail)) as (Hnone & Hexit & _).
  split; [exact Hnone|]. apply Hexit. right. right. reflexivity.
Defined.

Lemma help_short_circuit_witness :
  (extractGlobalFlags (parseArgs ["sync"; "--help"])).(help) = true
  /\ run (cli ["sync"; "--help"]) 0%nat
     = ({| world := 0%nat; client := None;
           trace := [ConsoleLog (generateHelp commands None)] |}, Exited 0).
Proof.
  split; [vm_compute; reflexivity|].
  apply (proj1 (help_short_circuit acceptAll stringifyText commands
                  newCountingClient None ["sync"; "--help"] 0%nat
                  (or_introl eq_refl))).
Defined.

End RunnerExamples.


Import Forms.

(* ===================================================================== *)
(** * Further properties of the name transcoder *)
(* ===================================================================== *)

Section TranscoderForms.

Ltac char_cases c :=
  destruct c as [[] [] [] [] [] [] [] []]; vm_compute;
  intros; try discriminate; repeat split; reflexivity.

Lemma upper_char_plain (c : ascii) :
  is_lower c = true ->
  is_lower (upper_char c) = false /\ is_hyphen (upper_char c) = false.
Proof. char_cases c. Qed.

Lemma lower_char_back (c : ascii) :
  is_upper c = true ->
  is_lower (lower_char c) = true /\ upper_char (lower_char c) = c.
Proof. char_cases c. Qed.

Lemma lower_char_not_upper (c : ascii) : is_upper (lower_char c) = false.
Proof. char_cases c. Qed.

Lemma hyphen_not_upper (c : ascii) : is_hyphen c = true -> is_upper c = false.
Proof. char_cases c. Qed.

Lemma lower_char_equals (c : ascii) :
  Ascii.eqb (lower_char c) "=" = Ascii.eqb c "=".
Proof. char_cases c. Qed.

Lemma kebabToCamel_keep (a : ascii) (t : string) :
  is_hyphen a = false -> kebabToCamel (String a t) = String a (kebabToCamel t).
Proof.
  intros Ha. destruct t as [|c r]; [reflexivity|].
  rewrite kebabToCamel_two. unfold is_hyphen in Ha. now rewrite Ha.
Qed.

(** The output of [kebabToCamel] is in compact form, whatever stood before
    it, provided a hyphen just before is not followed by a lowercase
    letter. *)
Lemma kebabToCamel_compact_from (n : nat) :
  forall (s : string) (b : bool),
    (String.length s <= n)%nat ->
    (b = true -> match s with
                 | String c _ => is_lower c = false
                 | EmptyString => True
                 end) ->
    compact_from b (kebabToCamel s) = true.
Proof.
  induction n as [|n IH]; intros s b Hlen Hb.
  - destruct s; [reflexivity | cbn in Hlen; lia].
  - destruct s as [|a [|c r]]; [reflexivity | |].
    + cbn [kebabToCamel compact_from]. rewrite andb_true_r.
      destruct b; [|reflexivity]. now rewrite (Hb eq_refl).
    + rewrite kebabToCamel_two.
      destruct (Ascii.eqb a "-" && is_lower c) eqn:Hstep.
      * apply andb_prop in Hstep as [_ Hlower].
        destruct (upper_char_plain c Hlower) as [Hnl Hnh].
        cbn [compact_from]. rewrite Hnl, Hnh, andb_false_r. cbn [negb andb].
        apply IH; [cbn in Hlen; lia | discriminate].
      * cbn [compact_from].
        assert (Ha : negb (b && is_lower a) = true).
        { destruct b; [|reflexivity]. now rewrite (Hb eq_refl). }
        rewrite Ha. cbn [andb].
        apply IH; [cbn in Hlen |- *; lia|].
        intros Hhyphen. unfold is_hyphen in Hhyphen.
        rewrite Hhyphen in Hstep. exact Hstep.
Qed.

Lemma kebabToCamel_compact (s : string) : compact (kebabToCamel s) = true.
Proof.
  apply (kebabToCamel_compact_from (String.length s)); [lia | discriminate].
Qed.

(** [kebabToCamel] leaves a name in compact form as it is. *)
Lemma kebabToCamel_fixes_compact (s : string) :
  forall b, compact_from b s = true -> kebabToCamel s = s.
Proof.
  induction s as [|a s IH]; intros b Hc; [reflexivity|].
  destruct s as [|c r]; [reflexivity|].
  rewrite kebabToCamel_two.
  cbn [compact_from] in Hc. apply andb_prop in Hc as [_ Hc].
  pose proof (IH _ Hc) as Htail.
  cbn [compact_from] in Hc. apply andb_prop in Hc as [Hpair _].
  apply negb_true_iff in Hpair. unfold is_hyphen in Hpair.
  rewrite Hpair. now rewrite Htail.
Qed.

Lemma camelToKebab_has_no_upper (s : string) : no_upper (camelToKebab s) = true.
Proof.
  unfold camelToKebab. induction s as [|a s IH]; [reflexivity|].
  cbn [hyphenate]. destruct (is_upper a).
  - cbn [toLowerCase no_upper]. now rewrite !lower_char_not_upper, IH.
  - cbn [toLowerCase no_upper]. now rewrite lower_char_not_upper, IH.
Qed.

Lemma camelToKebab_upper (a : ascii) (s : string) :
  is_upper a = true ->
  camelToKebab (String a s) = String "-" (String (lower_char a) (camelToKebab s)).
Proof.
  intros Ha. unfold camelToKebab. cbn [hyphenate]. rewrite Ha. reflexivity.
Qed.

Lemma kebabToCamel_after_camelToKebab (s : string) :
  no_hyphen s = true -> capitals_plain s = true ->
  kebabToCamel (camelToKebab s) = s.
Proof.
  induction s as [|a s IH]; intros Hs Hcap; [reflexivity|].
  cbn [no_hyphen] in Hs. apply andb_prop in Hs as [Ha Hs].
  apply negb_true_iff in Ha.
  cbn [capitals_plain] in Hcap. apply andb_prop in Hcap as [Hfix Hcap].
  destruct (is_upper a) eqn:Hup.
  - rewrite camelToKebab_upper by assumption.
    destruct (lower_char_back a Hup) as [Hlow Hback].
    rewrite kebabToCamel_two. rewrite Hlow. cbn [Ascii.eqb andb].
    change (Ascii.eqb "-" "-") with true. cbn [andb].
    now rewrite Hback, IH.
  - cbn [orb] in Hfix. rewrite camelToKebab_fixed by assumption.
    rewrite kebabToCamel_keep by assumption. now rewrite IH.
Qed.

Lemma includes_camelToKebab (s : string) :
  includes (camelToKebab s) "=" = includes s "=".
Proof.
  unfold camelToKebab. induction s as [|a s IH]; [reflexivity|].
  cbn [hyphenate]. destruct (is_upper a);
    cbn [toLowerCase includes]; rewrite ?lower_char_equals, IH; reflexivity.
Qed.

(** X1. [kebabToCamel] is idempotent: its result contains no hyphen
    followed by a lowercase letter, so a second pass changes nothing. *)
Theorem kebabToCamel_idempotent (s : string) :
  compact (kebabToCamel s) = true
  /\ kebabToCamel (kebabToCamel s) = kebabToCamel s.
Proof.
  split; [apply kebabToCamel_compact|].
  apply (kebabToCamel_fixes_compact _ false). apply kebabToCamel_compact.
Qed.

(** X2. [camelToKebab] never returns an upper-case letter. *)
Theorem camelToKebab_lowercase (s : string) : no_upper (camelToKebab s) = true.
Proof. apply camelToKebab_has_no_upper. Qed.

(** X3. The round trip in the other direction: for a name without hyphen
    whose only capital letters are A to Z (a schema field name such as
    "orderId"), [kebabToCamel (camelToKebab s)] is [s]; a capital outside
    A to Z is lowercased for good. *)
Theorem kebabToCamel_camelToKebab (s : string) :
  no_hyphen s = true -> capitals_plain s = true ->
  kebabToCamel (camelToKebab s) = s
  /\ (forall (c : ascii) (rest : string),
        is_latin1_upper c = true ->
        kebabToCamel (camelToKebab (String c rest)) <> String c rest).
Proof.
  intros Hs Hcap. split; [now apply kebabToCamel_after_camelToKebab|].
  intros c rest Hc Heq.
  assert (Hup : is_upper c = false) by (revert Hc; char_cases c).
  rewrite camelToKebab_plain in Heq by assumption.
  assert (Hh : is_hyphen (lower_char c) = false) by (revert Hc; char_cases c).
  rewrite kebabToCamel_keep in Heq by assumption.
  injection Heq as Hhead _. revert Hc Hhead. char_cases c.
Qed.

Lemma kebabToCamel_camelToKebab_witness :
  no_hyphen "includeLineItems" = true /\
  capitals_plain "includeLineItems" = true /\
  camelToKebab "includeLineItems" = "include-line-items" /\
  kebabToCamel (camelToKebab "includeLineItems") = "includeLineItems".
Proof.
  split; [reflexivity | split; [reflexivity | split; [reflexivity|]]].
  apply (kebabToCamel_camelToKebab "includeLineItems"); reflexivity.
Defined.

End TranscoderForms.

(* ===================================================================== *)
(** * Further properties of the tokenizer *)
(* ===================================================================== *)

Section TokenizerForms.

Lemma parseArgs_from_positional (argv : list string) (args : RawArgs) :
  all_positional argv = true -> parseArgs_from argv args = args.
Proof.
  unfold all_positional. induction argv as [|tok argv IH]; intros Hall;
    [reflexivity|].
  cbn [forallb] in Hall. apply andb_prop in Hall as [Htok Hall].
  apply negb_true_iff in Htok.
  rewrite parseArgs_from_skip by assumption. now apply IH.
Qed.

Lemma flag_token_last (k : string) (args : RawArgs) :
  includes k "=" = false -> startsWith k "no-" = false ->
  parseArgs_from ["--" +:+ k] args = assign (kebabToCamel k) (RBool true) args.
Proof.
  intros Hk Hno. cbn [parseArgs_from].
  change (startsWith ("--" +:+ k) "--") with true.
  change (includes ("--" +:+ k) "=") with (includes k "=").
  change (slice 2 ("--" +:+ k)) with k.
  now rewrite Hk, Hno.
Qed.

Lemma flag_token_before (k next : string) (rest : list string) (args : RawArgs) :
  includes k "=" = false -> startsWith k "no-" = false ->
  truthy next && negb (startsWith next "--") = false ->
  parseArgs_from (("--" +:+ k) :: next :: rest) args
  = parseArgs_from (next :: rest) (assign (kebabToCamel k) (RBool true) args).
Proof.
  intros Hk Hno Hnext. cbn [parseArgs_from].
  change (startsWith ("--" +:+ k) "--") with true.
  change (includes ("--" +:+ k) "=") with (includes k "=").
  change (slice 2 ("--" +:+ k)) with k.
  rewrite Hk, Hno, Hnext. reflexivity.
Qed.

(** Every key the scan adds is in compact form. *)
Lemma parseArgs_from_compact (n : nat) :
  forall (argv : list string) (args : RawArgs),
    (length argv <= n)%nat ->
    map_Forall (fun k _ => compact k = true) args ->
    map_Forall (fun k _ => compact k = true) (parseArgs_from argv args).
Proof.
  induction n as [|n IH]; intros argv args Hlen Hargs.
  - destruct argv; [exact Hargs | cbn in Hlen; lia].
  - destruct argv as [|arg rest]; [exact Hargs|].
    cbn [length] in Hlen.
    assert (Hins : forall key v,
               map_Forall (fun k _ => compact k = true)
                 (assign (kebabToCamel key) v args)).
    { intros key v. unfold assign.
      destruct (String.eqb (kebabToCamel key) "__proto__"); [exact Hargs|].
      apply map_Forall_insert_2; [|exact Hargs].
      apply kebabToCamel_compact. }
    cbn [parseArgs_from].
    destruct (negb (startsWith arg "--")); [apply IH; [lia | exact Hargs]|].
    destruct (includes arg "=").
    { destruct (split (slice 2 arg) "="); apply IH; try lia;
        [exact Hargs | apply Hins]. }
    destruct (startsWith (slice 2 arg) "no-"); [apply IH; [lia | apply Hins]|].
    destruct rest as [|nextArg rest'].
    + apply IH; [cbn; lia | apply Hins].
    + cbn [length] in Hlen.
      destruct (truthy nextArg && negb (startsWith nextArg "--"));
        apply IH; try apply Hins; cbn [length]; lia.
Qed.

(** X4. Tokens that are no options are ignored: an argument list without
    any option token leaves the arguments object empty. *)
Theorem positional_tokens_ignored (argv : list string) :
  all_positional argv = true -> parseArgs argv = ∅.
Proof. intros Hall. unfold parseArgs. now apply parseArgs_from_positional. Qed.

Lemma positional_tokens_ignored_witness :
  all_positional ["list"; "-v"; "5"] = true /\ parseArgs ["list"; "-v"; "5"] = ∅.
Proof.
  split; [reflexivity|]. apply (positional_tokens_ignored ["list"; "-v"; "5"]).
  reflexivity.
Defined.

(** X5. The last occurrence of an option wins: whatever the tokens before
    it stored, a final [--key=value] leaves [value] under the key, a final
    bare [--key] leaves [true], and every other key keeps what it had
    (the key [__proto__], under which nothing is ever stored, apart). *)
Theorem last_occurrence_wins (pre : list string) (k v : string) :
  includes k "=" = false ->
  kebabToCamel k <> "__proto__" ->
  parseArgs (pre ++ ["--" +:+ k +:+ "=" +:+ v]) !! kebabToCamel k = Some (RStr v)
  /\ (startsWith k "no-" = false ->
      parseArgs (pre ++ ["--" +:+ k]) !! kebabToCamel k = Some (RBool true))
  /\ (forall other, other <> kebabToCamel k ->
        parseArgs (pre ++ ["--" +:+ k +:+ "=" +:+ v]) !! other
        = parseArgs pre !! other).
Proof.
  intros Hk Hkey.
  assert (Heq : parseArgs (pre ++ ["--" +:+ k +:+ "=" +:+ v])
                = <[kebabToCamel k := RStr v]> (parseArgs pre)).
  { rewrite parseArgs_reaches by reflexivity.
    rewrite equals_token by assumption. cbn [parseArgs_from].
    now apply assign_stores. }
  split; [|split].
  - rewrite Heq. apply lookup_insert_eq.
  - intros Hno. rewrite parseArgs_reaches by reflexivity.
    rewrite flag_token_last by assumption.
    rewrite assign_stores by assumption. apply lookup_insert_eq.
  - intros other Hother. rewrite Heq. now apply lookup_insert_ne.
Qed.

Lemma last_occurrence_wins_witness :
  includes "page-size" "=" = false /\
  kebabToCamel "page-size" <> "__proto__" /\
  parseArgs (["--page-size"; "10"; "--page-size=20"] ++ ["--" +:+ "page-size" +:+ "=" +:+ "30"])
    !! "pageSize" = Some (RStr "30").
Proof.
  assert (Hkey : kebabToCamel "page-size" <> "__proto__") by discriminate.
  split; [reflexivity | split; [exact Hkey|]].
  exact (proj1 (last_occurrence_wins ["--page-size"; "10"; "--page-size=20"]
                  "page-size" "30" eq_refl Hkey)).
Defined.

(** X6. An option (other than [__proto__]) that is followed by another
    option token, or by nothing, is a boolean flag: it is set to [true]
    and the following option token is scanned as an option of its own. *)
Theorem bare_flag_is_true (pre : list string) (k : string) :
  includes k "=" = false -> startsWith k "no-" = false ->
  kebabToCamel k <> "__proto__" ->
  parseArgs (pre ++ ["--" +:+ k]) = <[kebabToCamel k := RBool true]> (parseArgs pre)
  /\ (forall tok rest, startsWith tok "--" = true ->
        parseArgs (pre ++ ("--" +:+ k) :: tok :: rest)
        = parseArgs_from (tok :: rest)
            (<[kebabToCamel k := RBool true]> (parseArgs pre))).
Proof.
  intros Hk Hno Hkey. split.
  - rewrite parseArgs_reaches by reflexivity.
    rewrite flag_token_last by assumption. now apply assign_stores.
  - intros tok rest Htok. rewrite parseArgs_reaches by reflexivity.
    rewrite flag_token_before; try assumption.
    + now rewrite assign_stores.
    + rewrite Htok. apply andb_false_r.
Qed.

Lemma bare_flag_is_true_witness :
  includes "dry-run" "=" = false /\ startsWith "dry-run" "no-" = false /\
  kebabToCamel "dry-run" <> "__proto__" /\
  parseArgs (["list"] ++ ("--" +:+ "dry-run") :: "--limit=5" :: [])
  = <["limit" := RStr "5"]> (<["dryRun" := RBool true]> ∅).
Proof.
  assert (Hkey : kebabToCamel "dry-run" <> "__proto__") by discriminate.
  split; [reflexivity | split; [reflexivity | split; [exact Hkey|]]].
  rewrite (proj2 (bare_flag_is_true ["list"] "dry-run" eq_refl eq_refl Hkey)
             "--limit=5" [] eq_refl).
  vm_compute. reflexivity.
Defined.

(** X7. An empty string is never taken as the value of the option before
    it: the option (other than [__proto__]) is set to [true] and the empty
    token is skipped. *)
Theorem empty_value_not_consumed (pre : list string) (k : string)
    (rest : list string) :
  includes k "=" = false -> startsWith k "no-" = false ->
  kebabToCamel k <> "__proto__" ->
  parseArgs (pre ++ ("--" +:+ k) :: "" :: rest)
  = parseArgs_from rest (<[kebabToCamel k := RBool true]> (parseArgs pre)).
Proof.
  intros Hk Hno Hkey. rewrite parseArgs_reaches by reflexivity.
  rewrite flag_token_before by (assumption || reflexivity).
  rewrite assign_stores by assumption.
  now apply parseArgs_from_skip.
Qed.

Lemma empty_value_not_consumed_witness :
  includes "first-name" "=" = false /\ startsWith "first-name" "no-" = false /\
  kebabToCamel "first-name" <> "__proto__" /\
  parseArgs ([] ++ ("--" +:+ "first-name") :: "" :: ["--force"])
  = <["force" := RBool true]> (<["firstName" := RBool true]> ∅).
Proof.
  assert (Hkey : kebabToCamel "first-name" <> "__proto__") by discriminate.
  split; [reflexivity | split; [reflexivity | split; [exact Hkey|]]].
  rewrite (empty_value_not_consumed [] "first-name" ["--force"] eq_refl eq_refl Hkey).
  vm_compute. reflexivity.
Defined.

(** X8. Every key of the arguments object is in compact form: it holds no
    hyphen followed by a lowercase letter, and [kebabToCamel] maps it to
    itself. *)
Theorem parseArgs_keys_compact (argv : list string) (key : string) :
  is_Some (parseArgs argv !! key) ->
  compact key = true /\ kebabToCamel key = key.
Proof.
  intros [v Hv].
  assert (Hc : compact key = true).
  { refine (parseArgs_from_compact (length argv) argv ∅ _ _ key v Hv);
      [lia | apply map_Forall_empty]. }
  split; [exact Hc|]. exact (kebabToCamel_fixes_compact key false Hc).
Qed.

Lemma parseArgs_keys_compact_witness :
  is_Some (parseArgs ["--include-line-items"; "--order-id=7"] !! "includeLineItems")
  /\ compact "includeLineItems" = true
  /\ kebabToCamel "includeLineItems" = "includeLineItems".
Proof.
  assert (Hk : is_Some (parseArgs ["--include-line-items"; "--order-id=7"]
                          !! "includeLineItems")).
  { exists (RBool true). vm_compute. reflexivity. }
  split; [exact Hk|].
  exact (parseArgs_keys_compact ["--include-line-items"; "--order-id=7"]
           "includeLineItems" Hk).
Defined.

(** X9. [extractCommand] finds no command exactly when every token is an
    option token. *)
Theorem extractCommand_none_iff (argv : list string) :
  extractCommand argv = None <-> all_options argv = true.
Proof.
  unfold extractCommand, all_options.
  induction argv as [|tok argv IH]; cbn [List.find forallb]; [tauto|].
  destruct (startsWith tok "--"); cbn [negb andb]; [exact IH|].
  split; discriminate.
Qed.



(** X11. The flag shown for a schema field parses back to the field: for
    a field name without hyphen and without equals sign, whose only
    capital letters are A to Z and which is not [__proto__], the token
    [--<camelToKebab name>=<v>] stores [v] under [name] itself. *)
Theorem rendered_flag_parses_back (pre : list string) (name v : string)
    (rest : list string) :
  no_hyphen name = true -> capitals_plain name = true ->
  includes name "=" = false -> name <> "__proto__" ->
  parseArgs (pre ++ ("--" +:+ camelToKebab name +:+ "=" +:+ v) :: rest)
  = parseArgs_from rest (<[name := RStr v]> (parseArgs pre)).
Proof.
  intros Hname Hcap Heq Hkey. rewrite parseArgs_reaches by reflexivity.
  rewrite equals_token by (now rewrite includes_camelToKebab).
  rewrite kebabToCamel_after_camelToKebab by assumption.
  now rewrite assign_stores.
Qed.

Lemma rendered_flag_parses_back_witness :
  no_hyphen "noCache" = true /\ capitals_plain "noCache" = true /\
  includes "noCache" "=" = false /\ "noCache" <> "__proto__" /\
  parseArgs ([] ++ ("--" +:+ camelToKebab "noCache" +:+ "=" +:+ "true") :: [])
  = {["noCache" := RStr "true"]}.
Proof.
  assert (Hkey : "noCache" <> "__proto__") by discriminate.
  split; [reflexivity | split; [reflexivity | split; [reflexivity|]]].
  split; [exact Hkey|].
  rewrite (rendered_flag_parses_back [] "noCache" "true" [] eq_refl eq_refl
             eq_refl Hkey).
  reflexivity.
Defined.

End TokenizerForms.

(* ===================================================================== *)
(** * Further properties of the introspector and of the coercion helpers *)
(* ===================================================================== *)

Section IntrospectorForms.
Context `{Builtins}.

Lemma extractField_name (fieldName : string) (fieldSchema : ZodType) :
  (extractField fieldName fieldSchema).(name) = fieldName.
Proof.
  unfold extractField.
  destruct fieldSchema as [def d]. cbn [def_of].
  destruct def as [ | | | | inner | inner v | | | ]; try reflexivity.
  - destruct inner as [idef d1]. cbn [def_of].
    destruct idef as [ | | | | | inner2 v | | | ]; try reflexivity.
    destruct inner2 as [[] d2]; reflexivity.
  - destruct inner as [[] d1]; reflexivity.
Qed.

Lemma unwrapEffects_wrapped (layers : list (Effect * option string))
    (schema : ZodType) :
  unwrapEffects (wrap_effects layers schema) = unwrapEffects schema.
Proof.
  induction layers as [|[effect d] layers IH]; [reflexivity|].
  cbn [wrap_effects unwrapEffects]. exact IH.
Qed.

(** X12. The introspector reports one field per entry of the object's
    shape, in the order of the shape and under the entry's key, also when
    the object stands under any number of effects layers; a schema that
    is no object, under any number of effects layers, has no fields. *)
Theorem extractSchemaFields_names (layers : list (Effect * option string))
    (def : ZodTypeDef) (d : option string) :
  (forall shape, def = ZodObject shape ->
     map name (extractSchemaFields (wrap_effects layers (Schema def d)))
     = map fst shape)
  /\ (is_object def = false -> is_effects def = false ->
      extractSchemaFields (wrap_effects layers (Schema def d)) = []).
Proof.
  unfold extractSchemaFields. rewrite unwrapEffects_wrapped. split.
  - intros shape ->. cbn [unwrapEffects def_of]. rewrite map_map.
    apply map_ext. intros [n s]. apply extractField_name.
  - intros Hobj Heff. destruct def; try discriminate; reflexivity.
Qed.

(** X13. For a string, number, boolean or enum schema the field has the
    schema's type; it is required when the schema stands alone, optional
    under [optional], and optional with its default under [default] or
    [optional] of [default]. The description is that of the outermost
    node. *)
Theorem extractField_wrappers (fieldName t : string) (def : ZodTypeDef)
    (v : value) (d d1 d2 : option string) :
  base_type def = Some t ->
  extractField fieldName (Schema def d)
    = mkField fieldName t true None d (enum_values def)
  /\ extractField fieldName (Schema (ZodOptional (Schema def d1)) d)
    = mkField fieldName t false None d (enum_values def)
  /\ extractField fieldName (Schema (ZodDefault (Schema def d1) v) d)
    = mkField fieldName t false (Some v) d (enum_values def)
  /\ extractField fieldName
       (Schema (ZodOptional (Schema (ZodDefault (Schema def d2) v) d1)) d)
    = mkField fieldName t false (Some v) d (enum_values def).
Proof.
  intros Hbase.
  destruct def; try discriminate Hbase; injection Hbase as <-;
    repeat split; reflexivity.
Qed.

(** X14. The wrappers are removed once each and in this order: under
    [default] of [optional] the inner schema is not reached, and the field
    is reported with type "string" whatever the inner schema is. *)
Theorem extractField_default_of_optional (fieldName : string)
    (inner : ZodType) (v : value) (d d1 : option string) :
  extractField fieldName (Schema (ZodDefault (Schema (ZodOptional inner) d1) v) d)
  = mkField fieldName "string" false (Some v) d None.
Proof. reflexivity. Qed.

Lemma bool_preprocess_cases (val : value) :
  cliTypes.bool_preprocess val
  = match val with
    | VBool b => VBool b
    | VString s =>
        if String.eqb s "true" then VBool true
        else if String.eqb s "false" then VBool false
        else VUndefined
    | _ => VUndefined
    end.
Proof.
  destruct val as [| | [] | s | n]; try reflexivity.
  unfold cliTypes.bool_preprocess.
  repeat match goal with
         | |- context [match ?x with EmptyString => _ | String _ _ => _ end] =>
             is_var x; destruct x; try reflexivity
         | |- context [match ?x with Ascii _ _ _ _ _ _ _ _ => _ end] =>
             is_var x; destruct x
         | |- context [if ?x then _ else _] =>
             is_var x; destruct x; try reflexivity
         end.
Qed.

(** X15. [cliTypes.bool()] accepts the two booleans and the two strings
    "true" and "false", and yields the boolean they name; every other
    input is preprocessed to [undefined] and rejected as a missing
    boolean, never read as [false]. *)
Theorem bool_coercion (val : value) :
  (forall b, val = VBool b \/ val = VString (if b then "true" else "false") ->
     parse cliTypes.bool val = POk (VBool b))
  /\ ((forall b, val <> VBool b /\ val <> VString (if b then "true" else "false")) ->
      parse cliTypes.bool val = PInvalid [invalid_type "boolean" "undefined"]).
Proof.
  change (parse cliTypes.bool val)
    with (parse (Schema ZodBoolean None) (cliTypes.bool_preprocess val)).
  rewrite bool_preprocess_cases. split.
  - intros b [-> | ->]; [reflexivity|]. destruct b; reflexivity.
  - intros Hnot. destruct val as [| | b | s | n]; try reflexivity.
    + destruct (Hnot b) as [Hb _]. now destruct Hb.
    + destruct (String.eqb s "true") eqn:Ht.
      { apply String.eqb_eq in Ht. subst s.
        destruct (Hnot true) as [_ Hs]. now destruct Hs. }
      destruct (String.eqb s "false") eqn:Hf.
      { apply String.eqb_eq in Hf. subst s.
        destruct (Hnot false) as [_ Hs]. now destruct Hs. }
      reflexivity.
Qed.

Lemma parse_bounded_number (n bound_max : number) :
  isInteger n = true ->
  number_lt n (of_Z 1) = false -> number_lt bound_max n = false ->
  parse_number [CheckInt; CheckMin (of_Z 1) true; CheckMax bound_max true] (VNumber n)
  = POk (VNumber n).
Proof.
  intros Hint Hmin Hmax. unfold parse_number.
  destruct n; try discriminate Hint;
    cbn [map concat run_check app]; rewrite Hint, Hmin, Hmax; reflexivity.
Qed.

(** X16. [cliTypes.limit]: when the input is absent or the empty string
    the default is used, and it passes through the same checks as an
    input: an integral default within [1, max] is the result, a default
    below 1 makes the validation fail. *)
Theorem limit_default (defaultVal max : number) (val : value) :
  val = VUndefined \/ val = VString "" ->
  isInteger defaultVal = true -> number_lt max defaultVal = false ->
  (number_lt defaultVal (of_Z 1) = false ->
   parse (cliTypes.limit (Some defaultVal) (Some max)) val = POk (VNumber defaultVal))
  /\ (number_lt defaultVal (of_Z 1) = true ->
      parse (cliTypes.limit (Some defaultVal) (Some max)) val
      = PInvalid [too_small (of_Z 1)]).
Proof.
  intros Hval Hint Hmax.
  assert (Hparse : parse (cliTypes.limit (Some defaultVal) (Some max)) val
                   = parse_number [CheckInt; CheckMin (of_Z 1) true; CheckMax max true]
                       (VNumber defaultVal)).
  { destruct Hval as [-> | ->]; reflexivity. }
  rewrite Hparse. split; intros Hmin.
  - now apply parse_bounded_number.
  - unfold parse_number.
    destruct defaultVal; try discriminate Hint;
      cbn [map concat run_check app]; rewrite Hint, Hmin, Hmax; reflexivity.
Qed.

(** X17. Booleans are converted, not rejected: a bare flag ([true]) is
    accepted by [cliTypes.int()] as 1 and a negated one ([false]) as 0;
    [cliTypes.limit], unlike [cliTypes.int], does not treat [null] as
    absent but converts it to 0, which is below its minimum. *)
Theorem booleans_and_null_coerced (b : Datatypes.bool) (defaultVal : option number) :
  parse (cliTypes.int None None) (VBool b)
    = POk (VNumber (of_Z (if b then 1 else 0)))
  /\ parse (cliTypes.limit defaultVal None) (VBool true) = POk (VNumber (of_Z 1))
  /\ parse (cliTypes.limit defaultVal None) VNull = PInvalid [too_small (of_Z 1)]
  /\ parse (cliTypes.int None None) VNull
     = PInvalid [invalid_type "number" "undefined"].
Proof.
  split; [destruct b; reflexivity|].
  split; [destruct defaultVal; vm_compute; reflexivity|].
  split; [destruct defaultVal; vm_compute; reflexivity | reflexivity].
Qed.

(** X18. [cliTypes.float()] without bounds: the empty string, [undefined]
    and [null] are rejected as missing; any other input is converted with
    [Number] and accepted as it is, fraction included, unless the
    conversion is [NaN]. *)
Theorem float_coercion (val : value) :
  (val = VString "" \/ val = VUndefined \/ val = VNull ->
   parse (cliTypes.float None None) val
   = PInvalid [invalid_type "number" "undefined"])
  /\ (val <> VString "" -> val <> VUndefined -> val <> VNull ->
      parse (cliTypes.float None None) val
      = match Number val with
        | S754_nan => PInvalid [invalid_type "number" "nan"]
        | n => POk (VNumber n)
        end).
Proof.
  split.
  - intros [-> | [-> | ->]]; reflexivity.
  - intros Hs Hu Hn.
    change (parse (cliTypes.float None None) val)
      with (parse_number [] (cliTypes.float_preprocess val)).
    unfold cliTypes.float_preprocess.
    assert (Habsent : is_empty_string val || is_undefined val || is_null val = false).
    { destruct val as [| | | s |]; try reflexivity; try contradiction.
      destruct s; [contradiction | reflexivity]. }
    rewrite Habsent. unfold parse_number.
    destruct (Number val); reflexivity.
Qed.

End IntrospectorForms.

Lemma extractField_wrappers_witness :
  base_type (ZodNumber [CheckInt]) = Some "number" /\
  @fieldLine Fixtures.decimal_builtins (extractField "pageSize"
               (Schema (ZodOptional
                          (Schema (ZodDefault (Schema (ZodNumber [CheckInt]) None)
                                              (VString "20")) None))
                       (Some "Rows per page")))
  = "      --page-size <number> (default: 20) - Rows per page".
Proof.
  split; [reflexivity|].
  destruct (extractField_wrappers "pageSize" "number" (ZodNumber [CheckInt])
              (VString "20") (Some "Rows per page") None None eq_refl)
    as (_ & _ & _ & Hfield).
  rewrite Hfield. reflexivity.
Defined.

Lemma limit_default_witness :
  parse (@cliTypes.limit Fixtures.decimal_builtins (Some (of_Z 50)) (Some (of_Z 250)))
    (VString "") = POk (VNumber (of_Z 50)).
Proof.
  refine (proj1 (@limit_default Fixtures.decimal_builtins (of_Z 50) (of_Z 250)
                   (VString "") (or_intror eq_refl) _ _) _);
    vm_compute; reflexivity.
Defined.

Lemma float_coercion_witness :
  parse (@cliTypes.float Fixtures.decimal_builtins None None) (VString "3.5")
  = POk (VNumber three_and_a_half).
Proof.
  rewrite (proj2 (@float_coercion Fixtures.decimal_builtins (VString "3.5")));
    [vm_compute; reflexivity | discriminate | discriminate | discriminate].
Defined.

(* ===================================================================== *)
(** * Further properties of the runner *)
(* ===================================================================== *)

Section RunnerForms.
Context `{Builtins}.
Context {World Data Result : Type}.
Context (safeParse : ZodType -> RawArgs -> SafeParseReturn Data).
Context (JSON_stringify : Result -> Thrown + string).

Abbreviation CommandMap := (@CommandMap World Data Result).
Abbreviation ClientClass := (@ClientClass World).
Abbreviation runCli := (runCli safeParse JSON_stringify).

Ltac none_constructed :=
  match goal with
  | |- (?x <= 1)%nat => replace x with 0%nat by reflexivity; lia
  end.

Ltac enter_guarded_block name def data :=
  rewrite (runCli_valid _ _ _ _ _ _ _ name def data) by assumption;
  unfold try_catch_finally, attempt, report, bind, call_method, call, emit,
    set_client, ret, process_exit;
  cbn [world client trace fst snd].

(** X19. A registered command with valid arguments, outside the help
    short-circuit and without a cache to disable: the client is
    constructed, the handler is run on the validated data, its result is
    printed, and the process ends with exit code 0. *)
Theorem runCli_success (commands : CommandMap) (newClient : ClientClass)
    (options : option RunCliOptions) (argv : list string) (w w1 w2 : World)
    (name : string) (def : CommandDef) (data : Data) (c : Client)
    (result : Result) (text : string) :
  help_requested argv = false ->
  extractCommand argv = Some name ->
  lookup_command commands name = Some def ->
  safeParse def.(schema) (parseArgs argv) = ParseSuccess data ->
  newClient w = (w1, inr c) ->
  (extractGlobalFlags (parseArgs argv)).(noCache) = false
    \/ c.(disableCache) = None ->
  def.(handler) data c (extractGlobalFlags (parseArgs argv)) w1 = (w2, inr result) ->
  JSON_stringify result = inr text ->
  run (runCli commands newClient options argv) w
  = ({| world := w2; client := Some c;
        trace := [SafeParse name; NewClient; Handler name; ConsoleLog text] |},
     Exited 0).
Proof.
  intros Hhelp Hcmd Hlookup Hparse Hnew Hcache Hrun Htext.
  enter_guarded_block name def data.
  rewrite Hnew. cbn [world client trace fst snd].
  destruct Hcache as [Hflag | Hcap].
  - rewrite Hflag. cbn [world client trace fst snd].
    rewrite Hrun. cbn [world client trace fst snd]. rewrite Htext. reflexivity.
  - rewrite Hcap. destruct (noCache _); cbn [world client trace fst snd];
      rewrite Hrun; cbn [world client trace fst snd]; rewrite Htext; reflexivity.
Qed.

(** X20. With the [noCache] global flag and a client that has a
    [disableCache] method, the method is called once, after construction
    and before the handler, and the handler sees what it did; if it throws,
    the handler is not run and the process ends with exit code 1. *)
Theorem runCli_disables_cache (commands : CommandMap) (newClient : ClientClass)
    (options : option RunCliOptions) (argv : list string) (w w1 w2 : World)
    (name : string) (def : CommandDef) (data : Data) (c : Client) (m : Method) :
  help_requested argv = false ->
  extractCommand argv = Some name ->
  lookup_command commands name = Some def ->
  safeParse def.(schema) (parseArgs argv) = ParseSuccess data ->
  newClient w = (w1, inr c) ->
  (extractGlobalFlags (parseArgs argv)).(noCache) = true ->
  c.(disableCache) = Some m ->
  (forall w3 result text,
      m w1 = (w2, None) ->
      def.(handler) data c (extractGlobalFlags (parseArgs argv)) w2 = (w3, inr result) ->
      JSON_stringify result = inr text ->
      run (runCli commands newClient options argv) w
      = ({| world := w3; client := Some c;
            trace := [SafeParse name; NewClient; DisableCache; Handler name;
                      ConsoleLog text] |}, Exited 0))
  /\ (forall error,
        m w1 = (w2, Some error) ->
        run (runCli commands newClient options argv) w
        = ({| world := w2; client := Some c;
              trace := [SafeParse name; NewClient; DisableCache;
                        ConsoleError (thrown_message error)] |}, Exited 1)).
Proof.
  intros Hhelp Hcmd Hlookup Hparse Hnew Hflag Hcap. split.
  - intros w3 result text Hm Hrun Htext.
    enter_guarded_block name def data.
    rewrite Hnew. cbn [world client trace fst snd].
    rewrite Hflag, Hcap. cbn [world client trace fst snd].
    rewrite Hm. cbn [world client trace fst snd].
    rewrite Hrun. cbn [world client trace fst snd]. rewrite Htext. reflexivity.
  - intros error Hm.
    enter_guarded_block name def data.
    rewrite Hnew. cbn [world client trace fst snd].
    rewrite Hflag, Hcap. cbn [world client trace fst snd].
    rewrite Hm. reflexivity.
Qed.

(** X21. When the client constructor throws, the handler is never run:
    the message of the error (or the string form of a thrown value that is
    no [Error]) is printed and the process ends with exit code 1. *)
Theorem runCli_constructor_throws (commands : CommandMap) (newClient : ClientClass)
    (options : option RunCliOptions) (argv : list string) (w w1 : World)
    (name : string) (def : CommandDef) (data : Data) (error : Thrown) :
  help_requested argv = false ->
  extractCommand argv = Some name ->
  lookup_command commands name = Some def ->
  safeParse def.(schema) (parseArgs argv) = ParseSuccess data ->
  newClient w = (w1, inl error) ->
  run (runCli commands newClient options argv) w
  = ({| world := w1; client := None;
        trace := [SafeParse name; NewClient; ConsoleError (thrown_message error)] |},
     Exited 1).
Proof.
  intros Hhelp Hcmd Hlookup Hparse Hnew.
  enter_guarded_block name def data.
  rewrite Hnew. reflexivity.
Qed.

(** X22. When the handler throws, or when its result cannot be
    serialised, nothing is printed on standard output: the message is
    printed as an error and the process ends with exit code 1. *)
Theorem runCli_handler_fails (commands : CommandMap) (newClient : ClientClass)
    (options : option RunCliOptions) (argv : list string) (w w1 w2 : World)
    (name : string) (def : CommandDef) (data : Data) (c : Client)
    (error : Thrown) :
  help_requested argv = false ->
  extractCommand argv = Some name ->
  lookup_command commands name = Some def ->
  safeParse def.(schema) (parseArgs argv) = ParseSuccess data ->
  newClient w = (w1, inr c) ->
  (extractGlobalFlags (parseArgs argv)).(noCache) = false ->
  def.(handler) data c (extractGlobalFlags (parseArgs argv)) w1 = (w2, inl error)
  \/ (exists result,
         def.(handler) data c (extractGlobalFlags (parseArgs argv)) w1
         = (w2, inr result)
         /\ JSON_stringify result = inl error) ->
  run (runCli commands newClient options argv) w
  = ({| world := w2; client := Some c;
        trace := [SafeParse name; NewClient; Handler name;
                  ConsoleError (thrown_message error)] |}, Exited 1).
Proof.
  intros Hhelp Hcmd Hlookup Hparse Hnew Hflag Hfail.
  enter_guarded_block name def data.
  rewrite Hnew. cbn [world client trace fst snd].
  rewrite Hflag. cbn [world client trace fst snd].
  destruct Hfail as [Hrun | (result & Hrun & Htext)].
  - rewrite Hrun. reflexivity.
  - rewrite Hrun. cbn [world client trace fst snd]. rewrite Htext. reflexivity.
Qed.

(** X23. A run constructs the client at most once, and exactly once when
    the help short-circuit does not apply, the command is registered and
    its arguments are valid, whatever the constructor, the handler and the
    serialisation then do. *)
Theorem runCli_constructs_once (commands : CommandMap) (newClient : ClientClass)
    (options : option RunCliOptions) (argv : list string) (w : World) :
  (occurrences is_new_client
     (events (run (runCli commands newClient options argv) w)) <= 1)%nat
  /\ (forall name def data,
        help_requested argv = false ->
        extractCommand argv = Some name ->
        lookup_command commands name = Some def ->
        safeParse def.(schema) (parseArgs argv) = ParseSuccess data ->
        occurrences is_new_client
          (events (run (runCli commands newClient options argv) w)) = 1%nat).
Proof.
  assert (Hvalid : forall name def data,
             help_requested argv = false ->
             extractCommand argv = Some name ->
             lookup_command commands name = Some def ->
             safeParse def.(schema) (parseArgs argv) = ParseSuccess data ->
             occurrences is_new_client
               (events (run (runCli commands newClient options argv) w)) = 1%nat).
  { intros name def data Hhelp Hcmd Hlookup Hparse.
    rewrite (runCli_valid _ _ _ _ _ _ _ name def data) by assumption.
    destruct (guarded_block_exits JSON_stringify newClient name def data
                (extractGlobalFlags (parseArgs argv))
                {| world := w; client := None; trace := [SafeParse name] |})
      as (_ & _ & Hnew).
    exact Hnew. }
  split; [|exact Hvalid].
  destruct (help_requested argv) eqn:Hhelp.
  { rewrite runCli_help by assumption. none_constructed. }
  destruct (extractCommand argv) as [name|] eqn:Hcmd.
  2:{ unfold help_requested in Hhelp. rewrite Hcmd in Hhelp.
      cbn [truthy_opt negb] in Hhelp. rewrite orb_true_r in Hhelp.
      discriminate Hhelp. }
  destruct (lookup_command commands name) as [def|] eqn:Hlookup.
  2:{ destruct (inherited_member name) eqn:Hinh.
      - rewrite (runCli_inherited _ _ _ _ _ _ _ name) by assumption.
        none_constructed.
      - rewrite (runCli_unknown _ _ _ _ _ _ _ name) by assumption.
        none_constructed. }
  destruct (safeParse def.(schema) (parseArgs argv)) as [data | error] eqn:Hparse.
  2:{ rewrite (runCli_invalid _ _ _ _ _ _ _ name def error) by assumption.
      none_constructed. }
  rewrite (Hvalid name def data) by (assumption || reflexivity). lia.
Qed.

End RunnerForms.

Section RunnerFormsExamples.
Import Fixtures MoreFixtures.

Lemma extractSchemaFields_names_witness :
  map name
    (extractSchemaFields
       (Schema (ZodEffects
          (Schema (ZodEffects
             (Schema (ZodObject [("orderId", Schema (ZodString (fun _ => [])) None);
                                 ("dryRun", cliTypes.bool)]) None)
             (Preprocess (fun v => v))) None)
          (AfterParse (fun r => r))) (Some "checked")))
  = ["orderId"; "dryRun"]
  /\ extractSchemaFields
       (Schema (ZodEffects (Schema (ZodEffects (Schema ZodBoolean None)
                                      (Preprocess (fun v => v))) None)
                           (AfterParse (fun r => r))) None) = [].
Proof.
  split.
  - exact (proj1 (extractSchemaFields_names
                    [(AfterParse (fun r => r), Some "checked");
                     (Preprocess (fun v => v), None)]
                    (ZodObject [("orderId", Schema (ZodString (fun _ => [])) None);
                                ("dryRun", cliTypes.bool)]) None) _ eq_refl).
  - exact (proj2 (extractSchemaFields_names
                    [(AfterParse (fun r => r), None);
                     (Preprocess (fun v => v), None)]
                    ZodBoolean None) eq_refl eq_refl).
Defined.

Lemma bool_coercion_witness :
  parse cliTypes.bool (VString "false") = POk (VBool false)
  /\ parse cliTypes.bool (VString "yes")
     = PInvalid [invalid_type "boolean" "undefined"].
Proof.
  split.
  - apply (proj1 (bool_coercion (VString "false")) false). now right.
  - apply (proj2 (bool_coercion (VString "yes"))).
    intros []; split; discriminate.
Defined.

Lemma runCli_success_witness :
  help_requested ["list"; "--limit"; "5"] = false /\
  run (runCli acceptAll stringifyText commands newBareClient None
         ["list"; "--limit"; "5"]) 0%nat
  = ({| world := 0%nat; client := Some bare_client;
        trace := [SafeParse "list"; NewClient; Handler "list"; ConsoleLog "done"] |},
     Exited 0).
Proof.
  split; [reflexivity|].
  refine (runCli_success acceptAll stringifyText commands newBareClient None
            ["list"; "--limit"; "5"] 0%nat 0%nat 0%nat "list"
            (createCommand emptyObject succeeding None)
            (parseArgs ["list"; "--limit"; "5"]) bare_client "done" "done"
            _ _ _ _ _ _ _ _);
    try reflexivity. now left.
Defined.

Lemma runCli_disables_cache_witness :
  (extractGlobalFlags (parseArgs ["list"; "--noCache"])).(noCache) = true /\
  run (runCli acceptAll stringifyText commands newCachingClient None
         ["list"; "--noCache"]) 0%nat
  = ({| world := 10%nat; client := Some caching_client;
        trace := [SafeParse "list"; NewClient; DisableCache; Handler "list";
                  ConsoleLog "done"] |}, Exited 0).
Proof.
  split; [reflexivity|].
  refine (proj1 (runCli_disables_cache acceptAll stringifyText commands
                   newCachingClient None ["list"; "--noCache"] 0%nat 0%nat 10%nat
                   "list" (createCommand emptyObject succeeding None)
                   (parseArgs ["list"; "--noCache"]) caching_client
                   (fun w => (10 + w, None))%nat _ _ _ _ _ _ _)
            10%nat "done" "done" _ _ _);
    reflexivity.
Defined.

Lemma runCli_constructor_throws_witness :
  help_requested ["sync"] = false /\
  run (runCli acceptAll stringifyText commands newBrokenClient None ["sync"]) 0%nat
  = ({| world := 0%nat; client := None;
        trace := [SafeParse "sync"; NewClient; ConsoleError "no credentials"] |},
     Exited 1).
Proof.
  split; [reflexivity|].
  refine (runCli_constructor_throws acceptAll stringifyText commands
            newBrokenClient None ["sync"] 0%nat 0%nat "sync"
            (createCommand emptyObject failing (Some "Synchronise"))
            (parseArgs ["sync"]) (NonError "no credentials") _ _ _ _ _);
    reflexivity.
Defined.

Lemma runCli_handler_fails_witness :
  help_requested ["sync"] = false /\
  run (runCli acceptAll stringifyText commands newBareClient None ["sync"]) 0%nat
  = ({| world := 0%nat; client := Some bare_client;
        trace := [SafeParse "sync"; NewClient; Handler "sync"; ConsoleError "boom"] |},
     Exited 1).
Proof.
  split; [reflexivity|].
  refine (runCli_handler_fails acceptAll stringifyText commands newBareClient
            None ["sync"] 0%nat 0%nat 0%nat "sync"
            (createCommand emptyObject failing (Some "Synchronise"))
            (parseArgs ["sync"]) bare_client (ErrorObject "boom")
            _ _ _ _ _ _ _);
    try reflexivity. now left.
Defined.

Lemma runCli_constructs_once_witness :
  help_requested ["sync"] = false /\
  occurrences is_new_client
    (events (run (runCli acceptAll stringifyText commands newBrokenClient None
                    ["sync"]) 0%nat)) = 1%nat.
Proof.
  split; [reflexivity|].
  refine (proj2 (runCli_constructs_once acceptAll stringifyText commands
                   newBrokenClient None ["sync"] 0%nat)
            "sync" (createCommand emptyObject failing (Some "Synchronise"))
            (parseArgs ["sync"]) _ _ _ _);
    reflexivity.
Defined.

End RunnerFormsExamples.

(* ===================================================================== *)
(** * Bounds, error text and help text *)
(* ===================================================================== *)

Section Rendered.
Context `{Builtins}.

Lemma int_preprocess_integer (val : value) :
  val <> VString "" -> val <> VUndefined -> val <> VNull ->
  isInteger (Number val) = true ->
  cliTypes.int_preprocess val = VNumber (Number val).
Proof.
  intros Hs Hu Hn Hint.
  destruct (int_preprocess_cases val) as [[_ Habs] | [[_ Hno] | [Hpre _]]].
  - destruct Habs as [-> | [-> | ->]]; contradiction.
  - congruence.
  - exact Hpre.
Qed.

(** X24. [cliTypes.int(min, max)] on an input that converts to an
    integer: the bounds are inclusive limits checked after the integer
    test; a value below [min] is rejected as too small, a value above
    [max] as too big, and a value within the bounds is the result. *)
Theorem int_bounds (lo hi : number) (val : value) :
  val <> VString "" -> val <> VUndefined -> val <> VNull ->
  isInteger (Number val) = true ->
  parse (cliTypes.int (Some lo) (Some hi)) val
  = match number_lt (Number val) lo, number_lt hi (Number val) with
    | false, false => POk (VNumber (Number val))
    | true, false => PInvalid [too_small lo]
    | false, true => PInvalid [too_big hi]
    | true, true => PInvalid [too_small lo; too_big hi]
    end.
Proof.
  intros Hs Hu Hn Hint. rewrite parse_int.
  rewrite int_preprocess_integer by assumption.
  cbn [cliTypes.with_min cliTypes.with_max app]. unfold parse_number.
  destruct (Number val) as [sign | sign | | sign m e] eqn:Hnum;
    try discriminate Hint;
    cbn [map concat run_check app]; rewrite Hint;
    destruct (number_lt _ lo), (number_lt hi _); reflexivity.
Qed.

(** X25. A missing required field is reported under the flag that
    supplies it: the message is "Missing required argument: --<flag>",
    and for a field name without hyphen and without equals sign, whose
    only capital letters are A to Z and which is not [__proto__], the
    token [--<flag>=<v>] stores [v] under the field name. *)
Theorem missing_argument_names_its_flag (fieldName expected text v : string) :
  no_hyphen fieldName = true -> capitals_plain fieldName = true ->
  includes fieldName "=" = false -> fieldName <> "__proto__" ->
  formatZodError
    {| issues := [ {| code := invalid_type expected "undefined";
                      path := [PKey fieldName]; message := text |} ] |}
  = "Missing required argument: " +:+ ("--" +:+ camelToKebab fieldName)
  /\ parseArgs [("--" +:+ camelToKebab fieldName) +:+ "=" +:+ v]
     = {[fieldName := RStr v]}.
Proof.
  intros Hname Hcap Heq Hkey. split; [reflexivity|].
  change [("--" +:+ camelToKebab fieldName) +:+ "=" +:+ v]
    with ([] ++ ("--" +:+ camelToKebab fieldName +:+ "=" +:+ v) :: [])%list.
  rewrite parseArgs_reaches by reflexivity.
  rewrite equals_token by (now rewrite includes_camelToKebab).
  rewrite kebabToCamel_after_camelToKebab by assumption.
  cbn [parseArgs_from]. now rewrite assign_stores.
Qed.

(** X26. In the help text the program name falls back to "cli", and the
    description line is left out, when no options are given, when the
    properties are absent, and also when they are empty strings. *)
Theorem generateHelp_fallbacks {World Data Result : Type}
    (commands : @CommandMap World Data Result) :
  generateHelp commands (Some (mkOptions None None)) = generateHelp commands None
  /\ generateHelp commands (Some (mkOptions (Some "") (Some "")))
     = generateHelp commands None
  /\ exists rest, generateHelp commands None = "cli" +:+ nl +:+ nl +:+ "Usage:" +:+ rest.
Proof.
  split; [reflexivity | split; [reflexivity|]].
  unfold generateHelp. cbn [app].
  eexists. unfold join. cbn [String.concat]. reflexivity.
Qed.

End Rendered.

Lemma int_bounds_witness :
  parse (@cliTypes.int Fixtures.decimal_builtins (Some (of_Z 1)) (Some (of_Z 100)))
    (VString "250") = PInvalid [too_big (of_Z 100)]
  /\ parse (@cliTypes.int Fixtures.decimal_builtins (Some (of_Z 1)) (Some (of_Z 100)))
    (VString "100") = POk (VNumber (of_Z 100)).
Proof.
  split.
  - rewrite (@int_bounds Fixtures.decimal_builtins (of_Z 1) (of_Z 100) (VString "250"));
      [vm_compute; reflexivity | discriminate | discriminate | discriminate
       | vm_compute; reflexivity].
  - rewrite (@int_bounds Fixtures.decimal_builtins (of_Z 1) (of_Z 100) (VString "100"));
      [vm_compute; reflexivity | discriminate | discriminate | discriminate
       | vm_compute; reflexivity].
Defined.

Lemma missing_argument_names_its_flag_witness :
  no_hyphen "orderId" = true /\ capitals_plain "orderId" = true /\
  includes "orderId" "=" = false /\ "orderId" <> "__proto__" /\
  @formatZodError Fixtures.decimal_builtins
    {| issues := [ {| code := invalid_type "string" "undefined";
                      path := [PKey "orderId"]; message := "Required" |} ] |}
  = "Missing required argument: --order-id"
  /\ parseArgs ["--order-id=7"] = {["orderId" := RStr "7"]}.
Proof.
  assert (Hkey : "orderId" <> "__proto__") by discriminate.
  split; [reflexivity | split; [reflexivity | split; [reflexivity|]]].
  split; [exact Hkey|].
  exact (@missing_argument_names_its_flag Fixtures.decimal_builtins
           "orderId" "string" "Required" "7" eq_refl eq_refl eq_refl Hkey).
Defined.
